(** * ShapeShift landing front end: search, grids, fetch utilities, scroll-spy

    A shallow embedding of the client-side logic of the resources section
    (search wrappers, [ResourceGrid], the CMS fetch utilities, the detail and
    list pages, the FAQ scroll-spy) together with the properties the
    specification states about them.

    Conventions.
    - A JavaScript string is a [string]; [String.prototype.toLowerCase] is a
      parameter of the development (any function on strings), so every
      statement holds for the real Unicode lowering; [ascii_toLowerCase] is
      an executable instance used in the examples.
    - A React component is the function from its props and state to what it
      renders; an event handler is a function on the component's state.
    - An [async] function is the function from the outcome of the requests
      it awaits to its own outcome (returned value or thrown exception)
      together with what it wrote to the console.
    - A JavaScript number that is measured and computed with (a pixel
      position) is an IEEE 754 binary64 value, a [spec_float] with the
      operations of [SpecFloat] at precision 53 and maximal exponent 1024. *)

From Stdlib Require Import List String Ascii Bool ZArith QArith Qabs Lia Permutation.
From Stdlib Require Import DecimalString SpecFloat.
From Stdlib Require PrimFloat FloatOps.
Import ListNotations.

Set Warnings "-register-all".

Local Open Scope list_scope.
Local Open Scope string_scope.

(* ------------------------------------------------------------------------- *)
(** ** JavaScript strings *)

Module JsString.

(** [s.includes(q)]: [q] occurs in [s] at some position. *)
Fixpoint includes (s q : string) : bool :=
  String.prefix q s ||
  match s with
  | EmptyString => false
  | String _ s' => includes s' q
  end.

(** The relation [includes] decides. *)
Definition Substring (q s : string) : Prop :=
  exists pre post, s = pre ++ q ++ post.

(** ASCII instance of [toLowerCase]. *)
Definition ascii_lower (c : ascii) : ascii :=
  let n := nat_of_ascii c in
  if (65 <=? n)%nat && (n <=? 90)%nat then ascii_of_nat (n + 32) else c.

Fixpoint ascii_toLowerCase (s : string) : string :=
  match s with
  | EmptyString => EmptyString
  | String c s' => String (ascii_lower c) (ascii_toLowerCase s')
  end.

End JsString.

(* ------------------------------------------------------------------------- *)
(** ** CMS records

    The type declarations of [@/components/strapi/types] are not part of the
    sources at hand; the records carry the fields the components read. *)

Record TDiscoverData := mkDiscover {
  d_slug : string;
  d_title : string;
  d_tag : string;
  d_type : string
}.

(** Modelled from the spec: the declaration of [TSupportedProtocolData] is
    missing.  [p_name], [p_slug], [p_description] and [p_isFeatured] are the
    fields the sources read; [p_title] and [p_tag] stand for the title and
    tag the specification attributes to every listed item, and no component
    reads them. *)
Record TSupportedProtocolData := mkProtocol {
  p_slug : string;
  p_name : string;
  p_description : string;
  p_isFeatured : bool;
  p_title : string;
  p_tag : string
}.

(** Modelled from the spec: the declaration of [TSupportedWalletData] is
    missing; same reading as for [TSupportedProtocolData]. *)
Record TSupportedWalletData := mkWallet {
  w_slug : string;
  w_name : string;
  w_description : string;
  w_isFeatured : bool;
  w_title : string;
  w_tag : string
}.

(* ------------------------------------------------------------------------- *)
(** ** Search wrappers *)

Module Search.
Import JsString.

Section Wrappers.
Variable toLowerCase : string -> string.

(** [DiscoverSearchWrapper]: [filteredDiscover], recomputed on every
    render from the [discover] prop ([null] when nothing was loaded) and
    the [searchQuery] state. *)
Definition discoverMatches (searchQuery : string) (item : TDiscoverData) : bool :=
  includes (toLowerCase (d_title item)) (toLowerCase searchQuery) ||
  includes (toLowerCase (d_tag item)) (toLowerCase searchQuery).

Definition filteredDiscover (discover : option (list TDiscoverData))
           (searchQuery : string) : option (list TDiscoverData) :=
  option_map (filter (discoverMatches searchQuery)) discover.

(** [ProtocolSearchWrapper]: two [useState] cells and [handleSearch]. *)
Record ProtocolSearchState := mkProtocolSearch {
  filteredProtocols : list TSupportedProtocolData;
  protocolSearchQuery : string
}.

Definition protocolSearchInit (protocols : list TSupportedProtocolData) :=
  mkProtocolSearch protocols "".

Definition protocolHandleSearch (protocols : list TSupportedProtocolData)
           (query : string) (_ : ProtocolSearchState) : ProtocolSearchState :=
  let filtered :=
    filter (fun protocol =>
              includes (toLowerCase (p_name protocol)) (toLowerCase query))
           protocols in
  mkProtocolSearch filtered query.

Definition featuredProtocols (st : ProtocolSearchState) :=
  filter (fun protocol => p_isFeatured protocol) (filteredProtocols st).

Definition nonFeaturedProtocols (st : ProtocolSearchState) :=
  filter (fun protocol => negb (p_isFeatured protocol)) (filteredProtocols st).

(** [WalletSearchWrapper]: same shape. *)
Record WalletSearchState := mkWalletSearch {
  filteredWallets : list TSupportedWalletData;
  walletSearchQuery : string
}.

Definition walletSearchInit (wallets : list TSupportedWalletData) :=
  mkWalletSearch wallets "".

Definition walletHandleSearch (wallets : list TSupportedWalletData)
           (query : string) (_ : WalletSearchState) : WalletSearchState :=
  let filtered :=
    filter (fun wallet =>
              includes (toLowerCase (w_name wallet)) (toLowerCase query))
           wallets in
  mkWalletSearch filtered query.

Definition featuredWallets (st : WalletSearchState) :=
  filter (fun wallet => w_isFeatured wallet) (filteredWallets st).

Definition nonFeaturedWallets (st : WalletSearchState) :=
  filter (fun wallet => negb (w_isFeatured wallet)) (filteredWallets st).

End Wrappers.

End Search.

(* ------------------------------------------------------------------------- *)
(** ** [ResourceGrid] *)

Module Grid.

(** [items: T[] | null | undefined]. *)
Inductive Items (T : Type) : Type :=
| ItemsNull
| ItemsUndefined
| ItemsArray (l : list T).
Arguments ItemsNull {T}.
Arguments ItemsUndefined {T}.
Arguments ItemsArray {T} l.

(** The props; an optional prop that is left out is [None]. *)
Record TResourceGridProps (T Node : Type) := mkGridProps {
  items : Items T;
  renderItem : T -> nat -> Node;
  isLoading : option bool;
  emptyMessage : option string;
  className : option string
}.
Arguments items {T Node}.
Arguments renderItem {T Node}.
Arguments isLoading {T Node}.
Arguments emptyMessage {T Node}.
Arguments className {T Node}.

(** What the component renders: the busy placeholder, the paragraph with
    the empty-state message, or the grid with its children. *)
Inductive GridView (Node : Type) : Type :=
| LoadingPlaceholder
| EmptyState (message : string)
| GridOf (className : string) (cards : list Node).
Arguments LoadingPlaceholder {Node}.
Arguments EmptyState {Node} message.
Arguments GridOf {Node} className cards.

(** A destructuring default: used when the prop is [undefined]. *)
Definition withDefault {A} (dflt : A) (prop : option A) : A :=
  match prop with Some a => a | None => dflt end.

(** [items.map((item, index) => renderItem(item, index))]. *)
Fixpoint mapFrom {T Node} (f : T -> nat -> Node) (index : nat) (l : list T) : list Node :=
  match l with
  | [] => []
  | item :: l' => f item index :: mapFrom f (S index) l'
  end.

Definition ResourceGrid {T Node} (props : TResourceGridProps T Node) : GridView Node :=
  let isLoading := withDefault false (isLoading props) in
  let emptyMessage := withDefault "No items available yet." (emptyMessage props) in
  let className := withDefault "" (className props) in
  if isLoading then LoadingPlaceholder
  else
    match items props with
    | ItemsNull | ItemsUndefined => EmptyState emptyMessage
    | ItemsArray [] => EmptyState emptyMessage
    | ItemsArray l => GridOf className (mapFrom (renderItem props) 0 l)
    end.

(** The cards and the empty-state message a view shows. *)
Definition cardsOf {Node} (v : GridView Node) : list Node :=
  match v with GridOf _ cards => cards | _ => [] end.

Definition messageOf {Node} (v : GridView Node) : option string :=
  match v with EmptyState m => Some m | _ => None end.

End Grid.

(* ------------------------------------------------------------------------- *)
(** ** JSON values and the [fetch] effect *)

Module Js.

(** The values a parsed response body and its property accesses yield. *)
Inductive Value : Type :=
| Undefined
| Null
| Bool (b : bool)
| Number (q : Q)
| Str (s : string)
| Array (l : list Value)
| Object (fields : list (string * Value)).

(** [ToBoolean]. *)
Definition truthy (v : Value) : bool :=
  match v with
  | Undefined | Null => false
  | Bool b => b
  | Number q => negb (Qeq_bool q 0)
  | Str s => negb (String.eqb s "")
  | Array _ | Object _ => true
  end.

(** [a || b]. *)
Definition or_else (a b : Value) : Value := if truthy a then a else b.

Fixpoint lookup (key : string) (fields : list (string * Value)) : Value :=
  match fields with
  | [] => Undefined
  | (k, v) :: fields' => if String.eqb k key then v else lookup key fields'
  end.

(** What is thrown: an [Error] instance with its message, or any other
    value with its [String(...)] rendering. *)
Inductive Thrown : Type :=
| ErrorInstance (message : string)
| OtherThrown (asString : string).

(** [error instanceof Error ? error.message : String(error)]. *)
Definition describe (error : Thrown) : string :=
  match error with
  | ErrorInstance message => message
  | OtherThrown asString => asString
  end.

(** A [fetch] call: the URL and the [RequestInit] the code passes. *)
Record Request := mkRequest {
  url : string;
  method : option string;
  body : option string;
  headers : list (string * string);
  revalidate : option Z
}.

(** The method the platform uses for a request. *)
Definition effectiveMethod (r : Request) : string :=
  match method r with Some m => m | None => "GET" end.

(** [await response.json()] either yields the parsed body or throws. *)
Inductive JsonOutcome : Type :=
| Parsed (v : Value)
| ParseFails (error : Thrown).

Record Response := mkResponse {
  ok : bool;
  status : Z;
  json : JsonOutcome
}.

(** [await fetch(...)] either yields a response or throws. *)
Inductive FetchOutcome : Type :=
| Responds (response : Response)
| NetworkError (error : Thrown).

(** What an [async] function did besides returning: the requests it
    issued and the lines it wrote with [console.error], oldest first. *)
Record Trace := mkTrace {
  requests : list Request;
  console : list (list string)
}.

Definition emptyTrace := mkTrace [] [].

Inductive Completion (A : Type) : Type :=
| Returns (a : A)
| Throws (error : Thrown).
Arguments Returns {A} a.
Arguments Throws {A} error.

(** Computations over a network (the outcome of each request) that keep a
    trace and may throw. *)
Definition Network := Request -> FetchOutcome.

Definition M (A : Type) : Type := Network -> Trace -> Completion A * Trace.

Definition ret {A} (a : A) : M A := fun _ t => (Returns a, t).

Definition throw {A} (error : Thrown) : M A := fun _ t => (Throws error, t).

Definition bind {A B} (m : M A) (k : A -> M B) : M B :=
  fun net t =>
    match m net t with
    | (Returns a, t') => k a net t'
    | (Throws error, t') => (Throws error, t')
    end.

(** [try { m } catch (error) { handler }]. *)
Definition tryCatch {A} (m : M A) (handler : Thrown -> M A) : M A :=
  fun net t =>
    match m net t with
    | (Returns a, t') => (Returns a, t')
    | (Throws error, t') => handler error net t'
    end.

Definition fetch (r : Request) : M Response :=
  fun net t =>
    let t' := mkTrace (requests t ++ [r]) (console t) in
    match net r with
    | Responds response => (Returns response, t')
    | NetworkError error => (Throws error, t')
    end.

Definition responseJson (response : Response) : M Value :=
  match json response with
  | Parsed v => ret v
  | ParseFails error => throw error
  end.

Definition consoleError (args : list string) : M unit :=
  fun _ t => (Returns tt, mkTrace (requests t) (console t ++ [args])).

(** [v.key]: a [TypeError] on [undefined] and [null]; the own field of an
    object ([undefined] when it has none of that name); nothing on the
    other values, for the keys read here. *)
Definition propOf (v : Value) (key : string) : Completion Value :=
  match v with
  | Undefined =>
      Throws (ErrorInstance ("Cannot read properties of undefined (reading '" ++ key ++ "')"))
  | Null =>
      Throws (ErrorInstance ("Cannot read properties of null (reading '" ++ key ++ "')"))
  | Object fields => Returns (lookup key fields)
  | _ => Returns Undefined
  end.

Definition getProp (v : Value) (key : string) : M Value :=
  fun _ t => (propOf v key, t).

(** [v?.[0]]. *)
Definition optionalFirst (v : Value) : Value :=
  match v with
  | Undefined | Null => Undefined
  | Array l => hd Undefined l
  | Str (String c _) => Str (String c EmptyString)
  | Object fields => lookup "0" fields
  | _ => Undefined
  end.

Definition run {A} (m : M A) (net : Network) : Completion A * Trace :=
  m net emptyTrace.

End Js.

Declare Scope js_scope.
Delimit Scope js_scope with js.
Notation "x <- m ;; k" := (Js.bind m (fun x => k))
  (at level 61, m at next level, right associativity) : js_scope.
Notation "m ;;; k" := (Js.bind m (fun _ => k))
  (at level 61, right associativity) : js_scope.

(* ------------------------------------------------------------------------- *)
(** ** The CMS fetch utilities *)

Module FetchUtils.
Import Js.
Local Open Scope js_scope.

(** [process.env]. *)
Record Env := mkEnv {
  STRAPI_URL : string;
  STRAPI_API_TOKEN : string
}.

(** The double-quote character of the log messages. *)
Definition dquote : string := String (ascii_of_nat 34) EmptyString.

(** A number inside a template literal. *)
Definition showNumber (z : Z) : string :=
  NilEmpty.string_of_int (Z.to_int z).

Section WithEnv.
Variable env : Env.

(** [{headers: {Authorization: `Bearer ${...}`}, next: {revalidate: 3600}}]:
    the [apiConfig] constant, which [fetchWithErrorHandling] writes inline. *)
Definition apiConfig (url : string) : Request :=
  {| url := url;
     method := None;
     body := None;
     headers := [("Authorization", "Bearer " ++ STRAPI_API_TOKEN env)];
     revalidate := Some 3600%Z |}.

(** [{headers: {Authorization: ...}}]: the options of the [fetch] calls of
    the [generateMetadata] functions and of the category and tag pages. *)
Definition authOnly (url : string) : Request :=
  {| url := url;
     method := None;
     body := None;
     headers := [("Authorization", "Bearer " ++ STRAPI_API_TOKEN env)];
     revalidate := None |}.

Definition fetchAllProtocols : M Value :=
  tryCatch
    (response <- fetch (apiConfig (STRAPI_URL env ++ "/api/supported-protocols?populate=*")) ;;
     if negb (ok response) then
       consoleError ["Failed to fetch protocols: " ++ showNumber (status response)] ;;;
       ret Null
     else
       data <- responseJson response ;;
       d <- getProp data "data" ;;
       ret (or_else d Null))
    (fun error =>
       consoleError ["Error fetching protocols:"; describe error] ;;;
       ret Null).

Definition fetchAllChains : M Value :=
  tryCatch
    (response <- fetch (apiConfig (STRAPI_URL env ++ "/api/supported-chains?populate=*")) ;;
     if negb (ok response) then
       consoleError ["Failed to fetch chains: " ++ showNumber (status response)] ;;;
       ret Null
     else
       data <- responseJson response ;;
       d <- getProp data "data" ;;
       ret (or_else d Null))
    (fun error =>
       consoleError ["Error fetching chains:"; describe error] ;;;
       ret Null).

Definition fetchAllWallets : M Value :=
  tryCatch
    (response <- fetch (apiConfig (STRAPI_URL env ++ "/api/supported-wallets?populate=*")) ;;
     if negb (ok response) then
       consoleError ["Failed to fetch wallets: " ++ showNumber (status response)] ;;;
       ret Null
     else
       data <- responseJson response ;;
       d <- getProp data "data" ;;
       ret (or_else d Null))
    (fun error =>
       consoleError ["Error fetching wallets:"; describe error] ;;;
       ret Null).

Definition fetchDiscoverBySlug (slug : string) : M Value :=
  tryCatch
    (response <- fetch (apiConfig (STRAPI_URL env ++ "/api/discovers?filters[slug][$eq]=" ++ slug
         ++ "&populate[0]=features&fields[1]=title&fields[2]=description&populate[3]=featuredImg&populate[4]=features.image&fields[5]=tag&populate[6]=features.buttonCta")) ;;
     if negb (ok response) then
       consoleError ["Failed to fetch discover data for slug " ++ dquote ++ slug ++ dquote
                       ++ ": " ++ showNumber (status response)] ;;;
       ret Null
     else
       data <- responseJson response ;;
       d <- getProp data "data" ;;
       ret (or_else (optionalFirst d) Null))
    (fun error =>
       consoleError ["Error fetching discover data for slug " ++ dquote ++ slug ++ dquote ++ ":";
                     describe error] ;;;
       ret Null).

Definition fetchFaqData : M Value :=
  tryCatch
    (response <- fetch (apiConfig (STRAPI_URL env
         ++ "/api/faq?populate[faqSection][populate][faqSectionItem][populate]=*")) ;;
     if negb (ok response) then
       consoleError ["Failed to fetch FAQ data: " ++ showNumber (status response)] ;;;
       ret Null
     else
       data <- responseJson response ;;
       d <- getProp data "data" ;;
       ret (or_else d Null))
    (fun error =>
       consoleError ["Error fetching FAQ data:"; describe error] ;;;
       ret Null).

Definition fetchWithErrorHandling (endpoint queryParams errorContext : string) : M Value :=
  tryCatch
    (response <- fetch (apiConfig (STRAPI_URL env ++ "/api/" ++ endpoint ++ "?" ++ queryParams)) ;;
     if negb (ok response) then
       consoleError ["Failed to fetch " ++ errorContext ++ ": Status "
                       ++ showNumber (status response)] ;;;
       ret Null
     else
       data <- responseJson response ;;
       d <- getProp data "data" ;;
       ret d)
    (fun error =>
       consoleError ["Error fetching " ++ errorContext ++ ":"; describe error] ;;;
       ret Null).

(** The requests of the [fetch] calls outside the utilities: the
    [generateMetadata] functions of the detail pages and the category and
    tag pages.  Each is one [fetch(url, {headers})]. *)
Definition protocolMetadataRequest (slug : string) : Request :=
  authOnly (STRAPI_URL env ++ "/api/supported-protocols?filters[slug][$eq]=" ++ slug ++ "&populate=*").

Definition walletMetadataRequest (slug : string) : Request :=
  authOnly (STRAPI_URL env ++ "/api/supported-wallets?filters[slug][$eq]=" ++ slug ++ "&populate=*").

Definition chainMetadataRequest (slug : string) : Request :=
  authOnly (STRAPI_URL env ++ "/api/supported-chains?filters[slug][$eq]=" ++ slug ++ "&populate=*").

Definition newsroomMetadataRequest (slug : string) : Request :=
  authOnly (STRAPI_URL env ++ "/api/newsrooms?filters[slug][$eq]=" ++ slug
    ++ "&fields[0]=postSummary&fields[1]=tags&fields[2]=title&fields[3]=publishedAt&populate[0]=featuredImg").

Definition blogMetadataRequest (slug : string) : Request :=
  authOnly (STRAPI_URL env ++ "/api/posts?filters[slug][$eq]=" ++ slug
    ++ "&fields[0]=summary&fields[2]=tags&fields[3]=title&fields[4]=publishedAt&populate[0]=featuredImg").

Definition newsroomTagRequest (tag : string) : Request :=
  authOnly (STRAPI_URL env ++ "/api/newsrooms?filters[tags][$contains]=" ++ tag
    ++ "&fields[0]=title&fields[1]=slug&fields[2]=publishedAt&populate[0]=featuredImg&sort[0]=publishedAt:desc").

Definition blogTagRequest (tag : string) : Request :=
  authOnly (STRAPI_URL env ++ "/api/posts?filters[tags][$contains]=" ++ tag
    ++ "&fields[0]=title&fields[1]=slug&fields[2]=publishedAt&populate[0]=featuredImg&sort[0]=publishedAt:desc").

Definition newsroomCategoryRequest (category : string) : Request :=
  authOnly (STRAPI_URL env ++ "/api/newsrooms?filters[category][$contains]=" ++ category
    ++ "&fields[0]=title&fields[1]=slug&fields[2]=publishedAt&populate[0]=featuredImg&sort[0]=publishedAt:desc&pagination[pageSize]=1").

Definition blogCategoryRequest (category : string) : Request :=
  authOnly (STRAPI_URL env ++ "/api/posts?filters[type][$contains]=" ++ category
    ++ "&fields[0]=title&fields[1]=slug&fields[2]=publishedAt&populate[0]=featuredImg&sort[0]=publishedAt:desc&pagination[pageSize]=1").

(** [fetch(url)] without options: the two calls of the legacy [/blog]
    routes to the second blogging back end. *)
Definition bare (url : string) : Request :=
  {| url := url; method := None; body := None; headers := []; revalidate := None |}.

Definition ghostPostRequest (slug : string) : Request :=
  bare ("https://w84april.ghost.io/ghost/api/content/posts/slug/" ++ slug
          ++ "/?key=7945d41133160c2f1f1b430d77").

Definition ghostPostsRequest : Request :=
  bare "https://w84april.ghost.io/ghost/api/content/posts/?key=7945d41133160c2f1f1b430d77".

(** The utilities by name, for statements about all of them. *)
Inductive Utility : Type :=
| FetchAllProtocols
| FetchAllChains
| FetchAllWallets
| FetchDiscoverBySlug (slug : string)
| FetchFaqData
| FetchWithErrorHandling (endpoint queryParams errorContext : string).

Definition call (u : Utility) : M Value :=
  match u with
  | FetchAllProtocols => fetchAllProtocols
  | FetchAllChains => fetchAllChains
  | FetchAllWallets => fetchAllWallets
  | FetchDiscoverBySlug slug => fetchDiscoverBySlug slug
  | FetchFaqData => fetchFaqData
  | FetchWithErrorHandling endpoint queryParams errorContext =>
      fetchWithErrorHandling endpoint queryParams errorContext
  end.

(** The pages' own [fetch] calls by name. *)
Inductive InlineFetch : Type :=
| ProtocolMetadata (slug : string)
| WalletMetadata (slug : string)
| ChainMetadata (slug : string)
| NewsroomMetadata (slug : string)
| BlogMetadata (slug : string)
| NewsroomTag (tag : string)
| BlogTag (tag : string)
| NewsroomCategory (category : string)
| BlogCategory (category : string)
| GhostPost (slug : string)
| GhostPosts.

Definition inlineRequest (f : InlineFetch) : Request :=
  match f with
  | ProtocolMetadata slug => protocolMetadataRequest slug
  | WalletMetadata slug => walletMetadataRequest slug
  | ChainMetadata slug => chainMetadataRequest slug
  | NewsroomMetadata slug => newsroomMetadataRequest slug
  | BlogMetadata slug => blogMetadataRequest slug
  | NewsroomTag tag => newsroomTagRequest tag
  | BlogTag tag => blogTagRequest tag
  | NewsroomCategory category => newsroomCategoryRequest category
  | BlogCategory category => blogCategoryRequest category
  | GhostPost slug => ghostPostRequest slug
  | GhostPosts => ghostPostsRequest
  end.

End WithEnv.

(** A request that only reads. *)
Definition isRead (r : Request) : Prop :=
  method r = None /\ body r = None /\ effectiveMethod r = "GET".

End FetchUtils.

(* ------------------------------------------------------------------------- *)
(** ** The paginated fetch hook and the cached-posts context *)

Module Hook.

(** A blog or newsroom post, with the fields the pages read. *)
Record TBlogPost := mkPost {
  slug : string;
  content : string;
  tags : list string;
  publishedAt : string
}.

(** The options object a page passes to [useFetchPosts] or
    [useFetchNewsroom]; a key that is left out is [None]. *)
Record TFetchArgs := mkArgs {
  page : Z;
  pageSize : Z;
  sort : string;
  tag : option string;
  populateContent : bool;
  cachePosts : bool;
  argSlug : option string;
  skip : option bool
}.

Record TPagination := mkPagination { pageCount : Z }.

Definition optEqb {A} (eqb : A -> A -> bool) (x y : option A) : bool :=
  match x, y with
  | Some a, Some b => eqb a b
  | None, None => true
  | _, _ => false
  end.

Definition argsEqb (a b : TFetchArgs) : bool :=
  (page a =? page b)%Z && (pageSize a =? pageSize b)%Z &&
  String.eqb (sort a) (sort b) && optEqb String.eqb (tag a) (tag b) &&
  Bool.eqb (populateContent a) (populateContent b) &&
  Bool.eqb (cachePosts a) (cachePosts b) &&
  optEqb String.eqb (argSlug a) (argSlug b) && optEqb Bool.eqb (skip a) (skip b).

(** One instance of the hook: what it returns to the page ([posts],
    [pagination], [isLoading]), the arguments of its last request, and the
    requests it has issued, oldest first. *)
Record HookState := mkHook {
  posts : list TBlogPost;
  pagination : option TPagination;
  isLoading : bool;
  lastArgs : option TFetchArgs;
  issued : list TFetchArgs
}.

(** Modelled from the spec: the hooks [useFetchPosts] and
    [useFetchNewsroom] of [@/hooks] are missing.  Section 4.1: the hook
    issues one GET for its arguments, returns the page of items with the
    pagination metadata and a loading flag, and fetches again when an
    argument changes; an error gives an empty result with the flag back to
    false.  Section 1: it fetches on mount and skips the request when the
    page reports the slug as cached.  The flag is up while a request is
    pending, from the mount or from a changed argument to the answer: the
    list pages describe it as telling whether the posts are currently being
    fetched. *)
Definition hookMount : HookState :=
  {| posts := []; pagination := None; isLoading := true;
     lastArgs := None; issued := [] |}.

(** Modelled from the spec: the effect the hook runs after a render with
    arguments [args] (see [hookMount]).  With [skip] set it requests
    nothing and reports that it is not loading; with the arguments of its
    last request it does nothing; with other arguments it issues a request
    and raises the flag. *)
Definition hookEffect (args : TFetchArgs) (h : HookState) : HookState :=
  match skip args with
  | Some true =>
      {| posts := posts h; pagination := pagination h; isLoading := false;
         lastArgs := lastArgs h; issued := issued h |}
  | _ =>
      if optEqb argsEqb (lastArgs h) (Some args) then h
      else
        {| posts := posts h; pagination := pagination h; isLoading := true;
           lastArgs := Some args; issued := issued h ++ [args] |}
  end.

(** Modelled from the spec: the answer of the CMS to the pending request,
    [None] for a failed one (see [hookMount]). *)
Definition hookResolve (answer : option (list TBlogPost * TPagination))
           (h : HookState) : HookState :=
  match answer with
  | Some (items, meta) =>
      {| posts := items; pagination := Some meta; isLoading := false;
         lastArgs := lastArgs h; issued := issued h |}
  | None =>
      {| posts := []; pagination := None; isLoading := false;
         lastArgs := lastArgs h; issued := issued h |}
  end.

End Hook.

(* ------------------------------------------------------------------------- *)
(** ** Detail pages *)

Module Detail.
Import Hook.

(** What a page resolves to: the loading skeleton, the [notFound()]
    transition, or its content. *)
Inductive PageView (A : Type) : Type :=
| Skeleton
| NotFound
| Content (a : A).
Arguments Skeleton {A}.
Arguments NotFound {A}.
Arguments Content {A} a.

(** [list.find(p => p.slug === slug)]. *)
Definition findBySlug (slug_ : string) (l : list TBlogPost) : option TBlogPost :=
  find (fun p => String.eqb (slug p) slug_) l.

(** [!!x] for the result of [find]: an object is truthy, [undefined] is not. *)
Definition found {A} (x : option A) : bool :=
  match x with Some _ => true | None => false end.

(** [BlogPost]: the arguments it passes to [useFetchPosts]. *)
Definition BlogPostArgs (cachedPosts : list TBlogPost) (slug_ : string) : TFetchArgs :=
  {| page := 1; pageSize := 1; sort := "desc"; tag := None;
     populateContent := true; cachePosts := true;
     argSlug := Some slug_;
     skip := Some (found (findBySlug slug_ cachedPosts)) |}.

(** [BlogPost]: what it renders from the cached posts and what the hook
    returned. *)
Definition BlogPost (cachedPosts : list TBlogPost) (slug_ : string)
           (h : HookState) : PageView TBlogPost :=
  let post := findBySlug slug_ (cachedPosts ++ posts h)%list in
  if isLoading h then Skeleton
  else
    match post with
    | None => NotFound
    | Some post => Content post
    end.

(** [NewsroomPostPage]: the same component over [useCachedNews] and
    [useFetchNewsroom]. *)
Definition NewsroomPostPageArgs (cachedPosts : list TBlogPost) (slug_ : string) : TFetchArgs :=
  {| page := 1; pageSize := 1; sort := "desc"; tag := None;
     populateContent := true; cachePosts := true;
     argSlug := Some slug_;
     skip := Some (found (findBySlug slug_ cachedPosts)) |}.

Definition NewsroomPostPage (cachedPosts : list TBlogPost) (slug_ : string)
           (h : HookState) : PageView TBlogPost :=
  let post := findBySlug slug_ (cachedPosts ++ posts h)%list in
  if isLoading h then Skeleton
  else
    match post with
    | None => NotFound
    | Some post => Content post
    end.

(** Modelled from the spec: [getSupportedProtocol] of
    [@/components/utils/query] is missing.  Section 7: a failed fetch and a
    missing record are one case.  [cms] is the collection the CMS holds,
    [None] when the request fails; the result is the record with the
    requested slug, [null] when there is none. *)
Definition getSupportedProtocol (cms : option (list TSupportedProtocolData))
           (slug_ : string) : option TSupportedProtocolData :=
  match cms with
  | None => None
  | Some records => find (fun p => String.eqb (p_slug p) slug_) records
  end.

(** [ProtocolPage]. *)
Definition ProtocolPage (cms : option (list TSupportedProtocolData))
           (slug_ : string) : PageView TSupportedProtocolData :=
  let protocol := getSupportedProtocol cms slug_ in
  match protocol with
  | None => NotFound
  | Some protocol => Content protocol
  end.

End Detail.

(* ------------------------------------------------------------------------- *)
(** ** Paginated list pages *)

Module ListPage.
Import Hook.

Definition PAGE_SIZE : Z := 12.
Definition SORT : string := "desc".

(** The arguments [NewsroomList] ([tag_] left out) and [ListOfPosts] pass to
    the hook on a render with page state [page_]. *)
Definition listArgs (tag_ : option string) (page_ : Z) : TFetchArgs :=
  {| page := page_; pageSize := PAGE_SIZE; sort := SORT; tag := tag_;
     populateContent := true; cachePosts := true;
     argSlug := None; skip := None |}.

(** A mounted list page: its [page] state, its hook, and the pagination
    control.  The control is the [ReactPaginate] component of the
    react-paginate package, which the page renders below the list without
    [forcePage] or [initialPage]: a control starts at index 0, keeps its
    zero-based index itself for as long as it stays on screen and reports a
    change through [onPageChange({selected})].  While the page returns the
    skeleton there is no control ([None]). *)
Record State := mkState {
  pageState : Z;
  hook : HookState;
  control : option Z
}.

(** What the page renders: the skeleton grid while the hook is loading,
    else the posts (or the nothing-found paragraph) with the pagination
    control below. *)
Inductive View : Type :=
| SkeletonGrid
| Listing (posts : list TBlogPost) (pageCount : Z).

Section Page.
Variable tag_ : option string.

(** A render runs the hook with the current page.  [if (isLoading)] returns
    the skeleton alone, which takes the control off the screen; a render of
    the list keeps the control that is there and creates one, at index 0,
    when there is none. *)
Definition render (s : State) : State :=
  let h := hookEffect (listArgs tag_ (pageState s)) (hook s) in
  {| pageState := pageState s;
     hook := h;
     control := if isLoading h then None
                else Some (match control s with Some index => index | None => 0%Z end) |}.

Definition mount : State :=
  render {| pageState := 1; hook := hookMount; control := None |}.

(** [onPageChange={({selected}) => setPage(selected + 1)}], followed by
    the render the state change causes. *)
Definition onPageChange (selected : Z) (s : State) : State :=
  render {| pageState := selected + 1; hook := hook s; control := control s |}.

(** [pageCount={pagination?.pageCount ?? 1}]. *)
Definition pageCountProp (s : State) : Z :=
  match pagination (hook s) with
  | Some meta => pageCount meta
  | None => 1
  end.

Definition view (s : State) : View :=
  if isLoading (hook s) then SkeletonGrid
  else Listing (posts (hook s)) (pageCountProp s).

(** The control: a click on the page with index [k], on next, on previous.
    There is no control to click while the skeleton is shown; a click on
    the current page, next on the last page and previous on the first one
    report nothing; any other click moves the control to the new index and
    reports it. *)
Definition select (k : Z) (s : State) : State :=
  match control s with
  | None => s
  | Some index =>
      if (k =? index)%Z then s
      else onPageChange k {| pageState := pageState s; hook := hook s;
                             control := Some k |}
  end.

Definition clickNext (s : State) : State :=
  match control s with
  | None => s
  | Some index =>
      if (index <? pageCountProp s - 1)%Z then select (index + 1) s else s
  end.

Definition clickPrevious (s : State) : State :=
  match control s with
  | None => s
  | Some index => if (0 <? index)%Z then select (index - 1) s else s
  end.

Inductive Event : Type :=
| Answer (answer : option (list TBlogPost * TPagination))
| ClickPage (k : Z)
| ClickNext
| ClickPrevious.

(** An answer of the CMS changes what the hook returns, and the page
    renders again. *)
Definition step (s : State) (e : Event) : State :=
  match e with
  | Answer answer =>
      render {| pageState := pageState s; hook := hookResolve answer (hook s);
                control := control s |}
  | ClickPage k => select k s
  | ClickNext => clickNext s
  | ClickPrevious => clickPrevious s
  end.

Definition run (events : list Event) : State := fold_left step events mount.

(** The page numbers of the requests issued so far. *)
Definition fetchedPages (s : State) : list Z := map page (issued (hook s)).

End Page.

End ListPage.

(* ------------------------------------------------------------------------- *)
(** ** The FAQ scroll-spy *)

Module Faq.

(** A mounted [section] element. *)
Definition Element := nat.

(** A JavaScript number: a binary64 value.  [getBoundingClientRect().top]
    is one, and [-], [Math.abs] and [<] on numbers are [SFsub 53 1024],
    [SFabs] and [SFltb]. *)
Definition number : Type := spec_float.

(** The literals [160], which is 5629499534213120 * 2^(-45), and [0]. *)
Definition n160 : number := S754_finite false 5629499534213120 (-45).
Definition n0 : number := S754_zero false.

(** [{title, top}]. *)
Record SectionPosition := mkPosition {
  title : string;
  top : number
}.

(** The component: the [activeSection] state, the refs [sectionRefs] (the
    entries of the object in enumeration order, [None] for a [null]
    element), [isManualScrolling], whether the frame requested last is
    still to run ([rafId] names it), and the reset timers still to fire. *)
Record State := mkState {
  activeSection : string;
  sectionRefs : list (string * option Element);
  isManualScrolling : bool;
  rafPending : bool;
  timers : nat
}.

(** [sectionRefs.current[sectionTitle]], when it is an element.  The
    titles looked up are those of the links of [FAQNavigation], which are
    the titles of the rendered sections: each is a key the ref callback has
    set on the object, and [refs] holds each key once.  The lookup reads the
    own properties: the assignment in the ref callback makes the title an
    own property, also when [Object.prototype] has a member of that name.
    The one title the assignment does not make a key, [__proto__], is left
    out of the model. *)
Fixpoint refLookup (sectionTitle : string) (refs : list (string * option Element))
  : option Element :=
  match refs with
  | [] => None
  | (t, element) :: refs' =>
      if String.eqb t sectionTitle then element else refLookup sectionTitle refs'
  end.

(** [Object.entries(sectionRefs.current).map(([title, element]) =>
    ({title, top: element?.getBoundingClientRect().top ?? 0}))], with
    [rectTop] the measure of each element at the time of the frame. *)
Definition sectionPositions (rectTop : Element -> number)
           (refs : list (string * option Element)) : list SectionPosition :=
  map (fun entry =>
         {| title := fst entry;
            top := match snd entry with
                   | Some element => rectTop element
                   | None => n0
                   end |})
      refs.

(** [Math.abs(p.top - 160)]. *)
Definition distance (p : SectionPosition) : number :=
  SFabs (SFsub 53 1024 (top p) n160).

(** The callback of [reduce]. *)
Definition closer (closest current : SectionPosition) : SectionPosition :=
  let currentDistance := distance current in
  let closestDistance := distance closest in
  if SFltb currentDistance closestDistance then current else closest.

(** [sectionPositions.reduce(closer, sectionPositions[0] || {title: '', top: 0})]. *)
Definition closestSection (positions : list SectionPosition) : SectionPosition :=
  fold_left closer positions (hd {| title := ""; top := n0 |} positions).

(** [handleScroll]: nothing while a click is being followed; else the
    pending frame is cancelled and a new one requested. *)
Definition handleScroll (s : State) : State :=
  if isManualScrolling s then s
  else
    {| activeSection := activeSection s; sectionRefs := sectionRefs s;
       isManualScrolling := isManualScrolling s; rafPending := true;
       timers := timers s |}.

(** The callback given to [requestAnimationFrame], run by the browser when
    the frame is still pending. *)
Definition frameCallback (rectTop : Element -> number) (s : State) : State :=
  if rafPending s then
    let closest := closestSection (sectionPositions rectTop (sectionRefs s)) in
    {| activeSection := title closest; sectionRefs := sectionRefs s;
       isManualScrolling := isManualScrolling s; rafPending := false;
       timers := timers s |}
  else s.

(** [scrollToSection]. *)
Definition scrollToSection (sectionTitle : string) (s : State) : State :=
  match refLookup sectionTitle (sectionRefs s) with
  | None => s
  | Some _ =>
      {| activeSection := sectionTitle; sectionRefs := sectionRefs s;
         isManualScrolling := true; rafPending := rafPending s;
         timers := S (timers s) |}
  end.

(** The callback given to [setTimeout(..., 500)]. *)
Definition timeoutCallback (s : State) : State :=
  match timers s with
  | O => s
  | S n =>
      {| activeSection := activeSection s; sectionRefs := sectionRefs s;
         isManualScrolling := false; rafPending := rafPending s;
         timers := n |}
  end.

(** The component after its first effect: [handleScroll()] has run once. *)
Definition mounted (refs : list (string * option Element)) : State :=
  handleScroll {| activeSection := ""; sectionRefs := refs;
                  isManualScrolling := false; rafPending := false;
                  timers := 0 |}.

Inductive Event : Type :=
| Scroll
| Frame (rectTop : Element -> number)
| Click (sectionTitle : string)
| Timeout.

Definition step (s : State) (e : Event) : State :=
  match e with
  | Scroll => handleScroll s
  | Frame rectTop => frameCallback rectTop s
  | Click sectionTitle => scrollToSection sectionTitle s
  | Timeout => timeoutCallback s
  end.

Definition run (events : list Event) (s : State) : State :=
  fold_left step events s.

Definition isScroll (e : Event) : Prop :=
  match e with Scroll => True | _ => False end.

End Faq.

(* ------------------------------------------------------------------------- *)
(** ** Grouping the discover items by type *)

Module DiscoverGroups.
Import Js.

(** The accumulator of [reduce]: the own properties of the object with
    their values, listed in the order they were created.  The list is read
    by key only: the order in which JavaScript enumerates the object, which
    puts integer-like names first, is not modelled. *)
Definition Groups := list (string * list TDiscoverData).

(** The names every object inherits from [Object.prototype]: read on the
    accumulator, each is a function or an object, so truthy and without a
    [push]; the callback never makes one of them an own property. *)
Definition objectPrototypeKeys : list string :=
  ["constructor"; "__defineGetter__"; "__defineSetter__"; "hasOwnProperty";
   "__lookupGetter__"; "__lookupSetter__"; "isPrototypeOf";
   "propertyIsEnumerable"; "toString"; "valueOf"; "__proto__"; "toLocaleString"].

Definition isInherited (key : string) : bool :=
  existsb (String.eqb key) objectPrototypeKeys.

(** The own property [acc[type]]. *)
Fixpoint groupOf (type_ : string) (acc : Groups) : option (list TDiscoverData) :=
  match acc with
  | [] => None
  | (k, items) :: acc' => if String.eqb k type_ then Some items else groupOf type_ acc'
  end.

(** [if (!acc[type]) acc[type] = []; acc[type].push(item)] on own
    properties. *)
Fixpoint pushTo (type_ : string) (item : TDiscoverData) (acc : Groups) : Groups :=
  match acc with
  | [] => [(type_, [item])]
  | (k, items) :: acc' =>
      if String.eqb k type_ then (k, items ++ [item])%list :: acc'
      else (k, items) :: pushTo type_ item acc'
  end.

(** The callback of [reduce]; an exception ends the reduction. *)
Definition groupStep (acc : Completion Groups) (item : TDiscoverData) : Completion Groups :=
  match acc with
  | Throws error => Throws error
  | Returns acc =>
      let type_ := d_type item in
      if isInherited type_
      then Throws (ErrorInstance "acc[type].push is not a function")
      else Returns (pushTo type_ item acc)
  end.

(** [filteredDiscover?.reduce(..., {})]. *)
Definition groupedDiscover (filteredDiscover : option (list TDiscoverData))
  : option (Completion Groups) :=
  option_map (fun items => fold_left groupStep items (Returns [])) filteredDiscover.

End DiscoverGroups.

(* ------------------------------------------------------------------------- *)
(** ** The chain search wrapper *)

(** A supported chain, with the fields [ChainSearchWrapper] and [ChainList]
    read, the image apart (see [Cards]). *)
Record TSupportedChainData := mkChain {
  c_slug : string;
  c_name : string;
  c_description : string;
  c_typeOfChain : string
}.

Module ChainSearch.
Import JsString.

Section Wrapper.
Variable toLowerCase : string -> string.

(** The two [useState] cells. *)
Record State := mkState {
  searchQuery : string;
  selectedType : string
}.

Definition init : State := mkState "" "All chains".

Definition handleSearch (query : string) (st : State) : State :=
  mkState query (selectedType st).

Definition setSelectedType (type_ : string) (st : State) : State :=
  mkState (searchQuery st) type_.

Definition chainsByType (chains : list TSupportedChainData) (st : State) :=
  filter (fun chain =>
            if String.eqb (selectedType st) "All chains" then true
            else String.eqb (c_typeOfChain chain) (selectedType st))
         chains.

Definition filteredChains (chains : list TSupportedChainData) (st : State) :=
  filter (fun chain =>
            includes (toLowerCase (c_name chain)) (toLowerCase (searchQuery st)))
         (chainsByType chains st).

End Wrapper.

End ChainSearch.

(* ------------------------------------------------------------------------- *)
(** ** [ResourceCard] and the lists built from it *)

Module Cards.
Import Grid.

(** [featuredImg]: the reference to the image of a record. *)
Record TImage := mkImage {
  imgUrl : string;
  imgWidth : option Z;
  imgHeight : option Z
}.

Inductive ImagePosition : Type := Center | Bottom.

(** The props of [ResourceCard]; an optional or [undefined] one is [None]. *)
Record TResourceCardProps := mkCardProps {
  slug : string;
  title : string;
  description : string;
  imageUrl : option string;
  imageWidth : option Z;
  imageHeight : option Z;
  baseURL : string;
  imagePosition : option ImagePosition;
  altText : option string;
  cardClassName : option string
}.

(** The [Image] of the resource inside a card. *)
Record CardImage := mkCardImage {
  src : string;
  alt : string;
  width : Z;
  height : Z;
  objectBottom : bool
}.

(** What a card renders: the link, the padding of the image box, the image
    or the grey placeholder ([None]), and the texts. *)
Record Card := mkCard {
  href : string;
  boxPadding : string;
  image : option CardImage;
  heading : string;
  body : string
}.

(** [s || dflt] on an optional string. *)
Definition strOr (s : option string) (dflt : string) : string :=
  match s with
  | Some s => if String.eqb s "" then dflt else s
  | None => dflt
  end.

(** [n || dflt] on a number. *)
Definition numOr (n : Z) (dflt : Z) : Z := if (n =? 0)%Z then dflt else n.

Section WithUrl.
(** [process.env.STRAPI_URL]. *)
Variable STRAPI_URL : string.

Definition ResourceCard (props : TResourceCardProps) : Card :=
  let imageWidth := withDefault 0%Z (imageWidth props) in
  let imageHeight := withDefault 0%Z (imageHeight props) in
  let imagePosition := withDefault Center (imagePosition props) in
  {| href := baseURL props ++ "/" ++ slug props;
     boxPadding := match imagePosition with Center => "p-10" | Bottom => "px-10 pt-10" end;
     image :=
       match imageUrl props with
       | None => None
       | Some imageUrl =>
           if String.eqb imageUrl "" then None
           else
             Some {| src := if String.prefix "http" imageUrl then imageUrl
                            else STRAPI_URL ++ imageUrl;
                     alt := strOr (altText props) (title props);
                     width := numOr imageWidth 100;
                     height := numOr imageHeight 100;
                     objectBottom := match imagePosition with
                                     | Center => false
                                     | Bottom => true
                                     end |}
       end;
     heading := title props;
     body := description props |}.

(** [isSearchQuery ? "We couldn't find ..." : dflt]. *)
Definition searchMiss : string := "We couldn't find anything matching your search.".

Definition emptyMessageFor (isSearchQuery : option bool) (dflt : string) : string :=
  if withDefault false isSearchQuery then searchMiss else dflt.

Section Lists.
(** The [featuredImg] of a record, which the record declarations at hand
    do not carry. *)
Variable walletImg : TSupportedWalletData -> option TImage.
Variable protocolImg : TSupportedProtocolData -> option TImage.
Variable chainImg : TSupportedChainData -> option TImage.

(** [img?.url], [img?.width], [img?.height]. *)
Definition urlOf (img : option TImage) : option string := option_map imgUrl img.

Definition widthOf (img : option TImage) : option Z :=
  match img with Some i => imgWidth i | None => None end.

Definition heightOf (img : option TImage) : option Z :=
  match img with Some i => imgHeight i | None => None end.

Definition walletCard (wallet : TSupportedWalletData) (_ : nat) : Card :=
  ResourceCard
    {| slug := w_slug wallet; title := w_name wallet; description := w_description wallet;
       imageUrl := urlOf (walletImg wallet);
       imageWidth := widthOf (walletImg wallet);
       imageHeight := heightOf (walletImg wallet);
       baseURL := "/supported-wallets"; imagePosition := Some Center;
       altText := Some (w_name wallet ++ " logo"); cardClassName := None |}.

Definition WalletList (wallets : Items TSupportedWalletData) (isLoading : option bool)
           (className : option string) (isSearchQuery : option bool) : GridView Card :=
  ResourceGrid
    {| items := wallets; isLoading := isLoading;
       emptyMessage := Some (emptyMessageFor isSearchQuery "No wallets available yet.");
       className := className; renderItem := walletCard |}.

Definition protocolCard (protocol : TSupportedProtocolData) (_ : nat) : Card :=
  ResourceCard
    {| slug := p_slug protocol; title := p_name protocol;
       description := p_description protocol;
       imageUrl := urlOf (protocolImg protocol);
       imageWidth := widthOf (protocolImg protocol);
       imageHeight := heightOf (protocolImg protocol);
       baseURL := "/supported-protocols"; imagePosition := Some Center;
       altText := Some (p_name protocol ++ " logo"); cardClassName := None |}.

Definition ProtocolList (protocols : Items TSupportedProtocolData) (isLoading : option bool)
           (className : option string) (isSearchQuery : option bool) : GridView Card :=
  ResourceGrid
    {| items := protocols; isLoading := isLoading;
       emptyMessage := Some (emptyMessageFor isSearchQuery "No protocols available yet.");
       className := className; renderItem := protocolCard |}.

Definition chainCard (chain : TSupportedChainData) (_ : nat) : Card :=
  ResourceCard
    {| slug := c_slug chain; title := c_name chain; description := c_description chain;
       imageUrl := urlOf (chainImg chain);
       imageWidth := widthOf (chainImg chain);
       imageHeight := heightOf (chainImg chain);
       baseURL := "/supported-chains"; imagePosition := Some Bottom;
       altText := Some (c_name chain ++ " logo"); cardClassName := None |}.

Definition ChainList (chains : Items TSupportedChainData) (isLoading : option bool)
           (className : option string) (isSearchQuery : option bool) : GridView Card :=
  ResourceGrid
    {| items := chains; isLoading := isLoading;
       emptyMessage := Some (emptyMessageFor isSearchQuery
                                              "No blockchain networks available yet.");
       className := className; renderItem := chainCard |}.

(** [!!searchQuery], [Boolean(searchQuery)]. *)
Definition nonEmpty (s : string) : bool := negb (String.eqb s "").

(** What a search wrapper renders below its search bar: the featured
    section when there is one, and the main section. *)
Record WrapperView := mkWrapperView {
  barQuery : string;
  featuredSection : option (GridView Card);
  mainSection : GridView Card
}.

Definition WalletSearchWrapper (st : Search.WalletSearchState) : WrapperView :=
  let featuredWallets := Search.featuredWallets st in
  let nonFeaturedWallets := Search.nonFeaturedWallets st in
  let searchQuery := Search.walletSearchQuery st in
  {| barQuery := searchQuery;
     featuredSection :=
       if (0 <? List.length featuredWallets)%nat
       then Some (WalletList (ItemsArray featuredWallets) None None
                             (Some (nonEmpty searchQuery)))
       else None;
     mainSection :=
       WalletList (ItemsArray nonFeaturedWallets) None None (Some (nonEmpty searchQuery)) |}.

Definition ProtocolSearchWrapper (st : Search.ProtocolSearchState) : WrapperView :=
  let featuredProtocols := Search.featuredProtocols st in
  let nonFeaturedProtocols := Search.nonFeaturedProtocols st in
  let searchQuery := Search.protocolSearchQuery st in
  {| barQuery := searchQuery;
     featuredSection :=
       if (0 <? List.length featuredProtocols)%nat
       then Some (ProtocolList (ItemsArray featuredProtocols) None None
                               (Some (nonEmpty searchQuery)))
       else None;
     mainSection :=
       ProtocolList (ItemsArray nonFeaturedProtocols) None None
                    (Some (nonEmpty searchQuery)) |}.

(** The list [ChainSearchWrapper] renders. *)
Definition ChainSearchWrapper (toLowerCase : string -> string)
           (chains : list TSupportedChainData) (st : ChainSearch.State) : GridView Card :=
  ChainList (ItemsArray (ChainSearch.filteredChains toLowerCase chains st)) None None
            (Some (nonEmpty (ChainSearch.searchQuery st))).

End Lists.
End WithUrl.

End Cards.

(* ------------------------------------------------------------------------- *)
(** ** [generateMetadata] of the protocol page *)

Module ProtocolMetadata.
Import Js FetchUtils.
Local Open Scope js_scope.

(** [v[0]]: a [TypeError] on [undefined] and [null]. *)
Definition getIndex0 (v : Value) : M Value :=
  match v with
  | Undefined =>
      throw (ErrorInstance "Cannot read properties of undefined (reading '0')")
  | Null =>
      throw (ErrorInstance "Cannot read properties of null (reading '0')")
  | _ => ret (optionalFirst v)
  end.

(** The [Metadata] object the function builds. *)
Record Metadata := mkMetadata {
  m_title : string;
  m_description : string;
  m_keywords : string;
  og_title : Value;
  og_description : string;
  og_type : string;
  og_image : string;
  tw_card : string;
  tw_title : Value;
  tw_description : string;
  tw_image : string
}.

(** The function either calls [notFound()] or returns its metadata. *)
Inductive PageResult (A : Type) : Type :=
| NotFoundCalled
| Result (a : A).
Arguments NotFoundCalled {A}.
Arguments Result {A} a.

Section WithEnv.
Variable env : Env.
(** The conversion of a value inside a template literal. *)
Variable ToString : Value -> string.

Definition generateMetadata (slug : string) : M (PageResult Metadata) :=
  if String.eqb slug "" then ret NotFoundCalled
  else
    response <- fetch (protocolMetadataRequest env slug) ;;
    data <- responseJson response ;;
    d <- getProp data "data" ;;
    protocol <- getIndex0 d ;;
    if negb (truthy protocol) then ret NotFoundCalled
    else
      featuredImg <- getProp protocol "featuredImg" ;;
      formats <- getProp featuredImg "formats" ;;
      thumbnail <- getProp formats "thumbnail" ;;
      imageUrl <- getProp thumbnail "url" ;;
      name <- getProp protocol "name" ;;
      ret (Result
             {| m_title := ToString name ++ " | Shapeshift";
                m_description := "Shift into " ++ ToString name ++ " with ShapeShift!";
                m_keywords := ToString name ++ ", Shapeshift";
                og_title := name;
                og_description := "Shift into " ++ ToString name ++ " with ShapeShift!";
                og_type := "website";
                og_image := STRAPI_URL env ++ ToString imageUrl;
                tw_card := "summary_large_image";
                tw_title := name;
                tw_description := "Shift into " ++ ToString name ++ " with ShapeShift!";
                tw_image := STRAPI_URL env ++ ToString imageUrl |}).

End WithEnv.

End ProtocolMetadata.

(* ------------------------------------------------------------------------- *)
(** ** Structured data *)

Module Schema.
Import Js.

(** A post as [generateBlogPostSchema] reads it; a field that is
    [undefined] is [None]. *)
Record SchemaPost := mkSchemaPost {
  sp_title : option string;
  sp_slug : option string;
  sp_summary : option string;
  sp_featuredImgUrl : option string;
  sp_publishedAt : string;
  sp_updatedAt : option string;
  sp_tags : option (list string);
  sp_type : option (list string)
}.

(** [s || dflt] on an optional string. *)
Definition strOr (s : option string) (dflt : string) : string :=
  match s with
  | Some s => if String.eqb s "" then dflt else s
  | None => dflt
  end.

(** [!s] on an optional string. *)
Definition missing (s : option string) : bool :=
  match s with
  | Some s => String.eqb s ""
  | None => true
  end.

(** [l.join(', ')]. *)
Fixpoint join (l : list string) : string :=
  match l with
  | [] => ""
  | [s] => s
  | s :: l' => s ++ ", " ++ join l'
  end.

Definition organizationSchema : Value :=
  Object [("@context", Str "https://schema.org");
          ("@type", Str "Organization");
          ("name", Str "ShapeShift");
          ("url", Str "https://shapeshift.com");
          ("logo", Str "https://shapeshift.com/icon.png");
          ("sameAs", Array [Str "https://twitter.com/ShapeShift";
                            Str "https://discord.com/invite/shapeshift"])].

Section WithEnv.
(** [process.env.NEXT_PUBLIC_STRAPI_URL] and [process.env.NEXT_PUBLIC_SITE_URL]. *)
Variable NEXT_PUBLIC_STRAPI_URL : option string.
Variable NEXT_PUBLIC_SITE_URL : option string.

Definition generateBlogPostSchema (post : option SchemaPost) (baseUrl : string) : Value :=
  match post with
  | None => Object []
  | Some post =>
      if missing (sp_title post) || missing (sp_slug post) then Object []
      else
        let postUrl := baseUrl ++ "/blog/" ++ strOr (sp_slug post) "" in
        let imageUrl :=
          if missing (sp_featuredImgUrl post) then baseUrl ++ "/opengraph-image.png"
          else strOr NEXT_PUBLIC_STRAPI_URL "https://cms.shapeshift.com"
                 ++ strOr (sp_featuredImgUrl post) "" in
        Object [("@context", Str "https://schema.org");
                ("@type", Str "BlogPosting");
                ("headline", Str (strOr (sp_title post) ""));
                ("description", Str (strOr (sp_summary post) ""));
                ("image", Str imageUrl);
                ("url", Str postUrl);
                ("datePublished", Str (sp_publishedAt post));
                ("dateModified", Str (strOr (sp_updatedAt post) (sp_publishedAt post)));
                ("author", Object [("@type", Str "Organization");
                                   ("name", Str "ShapeShift");
                                   ("url", Str baseUrl)]);
                ("publisher", organizationSchema);
                ("mainEntityOfPage", Object [("@type", Str "WebPage");
                                             ("@id", Str postUrl)]);
                ("keywords", Str (strOr (option_map join (sp_tags post)) ""));
                ("articleSection",
                 Str (strOr (match sp_type post with
                             | Some (first :: _) => Some first
                             | _ => None
                             end) "General"))]
  end.

(** [s.split('/').pop()]: what follows the last slash. *)
Fixpoint lastSegmentFrom (segment s : string) : string :=
  match s with
  | EmptyString => segment
  | String c s' =>
      if Ascii.eqb c "/"%char then lastSegmentFrom "" s'
      else lastSegmentFrom (segment ++ String c "") s'
  end.

Definition lastSegment (s : string) : string := lastSegmentFrom "" s.

(** [features.map((feature, index) => ({..., position: index + 1, ...}))]. *)
Fixpoint listItems (index : nat) (features : list (string * string)) : list Value :=
  match features with
  | [] => []
  | (title, description) :: features' =>
      Object [("@type", Str "ListItem");
              ("position", Number (inject_Z (Z.of_nat index + 1)));
              ("name", Str title);
              ("description", Str description)]
      :: listItems (S index) features'
  end.

Definition generateProductSchema (title description : string) (featuredImage : option string)
           (pageURL : string) (features : option (list (string * string))) : Value :=
  let features := match features with Some l => l | None => [] end in
  if String.eqb title "" || String.eqb pageURL "" then Object []
  else
    let productID := strOr (Some (lastSegment pageURL)) "shapeshift-product" in
    let image :=
      strOr featuredImage
            (strOr NEXT_PUBLIC_SITE_URL "https://shapeshift.com" ++ "/opengraph-image.png") in
    Object ([("@context", Str "https://schema.org");
             ("@type", Str "SoftwareApplication");
             ("id", Str productID);
             ("name", Str title);
             ("description", Str (strOr (Some description) ""));
             ("image", Str image);
             ("url", Str pageURL);
             ("applicationCategory", Str "FinanceApplication");
             ("operatingSystem", Str "Web, Android, iOS");
             ("author", organizationSchema);
             ("publisher", organizationSchema)]
            ++ match features with
               | [] => []
               | _ :: _ =>
                   [("featureList",
                     Object [("@type", Str "ItemList");
                             ("itemListElement", Array (listItems 0 features))])]
               end)%list.

End WithEnv.

End Schema.

(* ------------------------------------------------------------------------- *)
(** ** The heading of a post page *)

Module PostHeading.

(** [post.slug.replace(/-/g, ' ')], the [h1] of [BlogPost] and of
    [NewsroomPostPage]. *)
Fixpoint replaceHyphens (s : string) : string :=
  match s with
  | EmptyString => EmptyString
  | String c s' =>
      String (if Ascii.eqb c "-"%char then " "%char else c) (replaceHyphens s')
  end.

End PostHeading.

(* ========================================================================= *)
(** * Properties *)

(* ------------------------------------------------------------------------- *)
(** ** Strings *)

Module JsStringFacts.
Import JsString.

Lemma prefix_app (q s : string) :
  String.prefix q s = true <-> exists post, s = q ++ post.
Proof.
  revert s; induction q as [|c q IH]; intros s.
  - split; [intros _; now exists s | intros _; now destruct s].
  - destruct s as [|d s]; simpl.
    + split; [discriminate | intros [post H]; discriminate].
    + destruct (ascii_dec c d) as [Heq|Hne].
      * subst d. rewrite IH. split; intros [post H]; exists post.
        -- now rewrite H.
        -- now inversion H.
      * split; [discriminate|].
        intros [post H]. inversion H. congruence.
Qed.

Lemma includes_spec (s q : string) :
  includes s q = true <-> Substring q s.
Proof.
  induction s as [|c s IH]; cbn [includes]; rewrite orb_true_iff.
  - rewrite prefix_app. split.
    + intros [[post H]|H]; [|discriminate]. now exists "", post.
    + intros [pre [post H]]. left.
      destruct pre; simpl in H; [now exists post | discriminate].
  - rewrite prefix_app, IH. split.
    + intros [[post H]|[pre [post H]]].
      * now exists "", post.
      * exists (String c pre), post. simpl. now rewrite H.
    + intros [pre [post H]]. destruct pre as [|d pre]; simpl in H.
      * left. now exists post.
      * right. inversion H. now exists pre, post.
Qed.

End JsStringFacts.

(* ------------------------------------------------------------------------- *)
(** ** Search wrappers *)

Module SearchFacts.
Import JsString JsStringFacts Search.

Section Wrappers.
Variable toLowerCase : string -> string.

(** Membership in a filtered array. *)
Lemma filter_includes {A} (key : A -> string) (q : string) (l : list A) (x : A) :
  In x (filter (fun a => includes (toLowerCase (key a)) (toLowerCase q)) l) <->
  In x l /\ Substring (toLowerCase q) (toLowerCase (key x)).
Proof.
  rewrite filter_In, includes_spec. reflexivity.
Qed.

Lemma discoverMatches_spec (q : string) (item : TDiscoverData) :
  discoverMatches toLowerCase q item = true <->
  Substring (toLowerCase q) (toLowerCase (d_title item)) \/
  Substring (toLowerCase q) (toLowerCase (d_tag item)).
Proof.
  unfold discoverMatches. rewrite orb_true_iff, !includes_spec. reflexivity.
Qed.

(** C1, as the code has it: the discover wrapper keeps exactly the loaded
    items whose lowercased title or lowercased tag contains the lowercased
    query; the protocol and wallet wrappers keep exactly the items whose
    lowercased name contains it.  The result is the input with the other
    items removed, so order and repetitions are kept. *)
Theorem search_filter_criteria :
  (forall (discover : list TDiscoverData) (q : string),
      exists shown,
        filteredDiscover toLowerCase (Some discover) q = Some shown /\
        forall item,
          In item shown <->
          In item discover /\
          (Substring (toLowerCase q) (toLowerCase (d_title item)) \/
           Substring (toLowerCase q) (toLowerCase (d_tag item)))) /\
  (forall (protocols : list TSupportedProtocolData) (q : string) st protocol,
      In protocol (filteredProtocols (protocolHandleSearch toLowerCase protocols q st)) <->
      In protocol protocols /\
      Substring (toLowerCase q) (toLowerCase (p_name protocol))) /\
  (forall (wallets : list TSupportedWalletData) (q : string) st wallet,
      In wallet (filteredWallets (walletHandleSearch toLowerCase wallets q st)) <->
      In wallet wallets /\
      Substring (toLowerCase q) (toLowerCase (w_name wallet))).
Proof.
  split; [|split].
  - intros discover q. eexists. split; [reflexivity|].
    intros item. rewrite filter_In, discoverMatches_spec. reflexivity.
  - intros protocols q st protocol. apply (filter_includes p_name).
  - intros wallets q st wallet. apply (filter_includes w_name).
Qed.

(** The two displayed lists of a wrapper split the filtered list. *)
Lemma split_by_flag {A} (flag : A -> bool) (l : list A) :
  Permutation l (filter flag l ++ filter (fun a => negb (flag a)) l)%list /\
  (forall a, In a (filter flag l) <-> In a l /\ flag a = true) /\
  (forall a, In a (filter (fun a => negb (flag a)) l) <-> In a l /\ flag a = false) /\
  (forall a, ~ (In a (filter flag l) /\ In a (filter (fun a => negb (flag a)) l))) /\
  (List.length (filter flag l) + List.length (filter (fun a => negb (flag a)) l)
   = List.length l)%nat.
Proof.
  split; [|split; [|split; [|split]]].
  - induction l as [|a l IH]; simpl; [constructor|].
    destruct (flag a); simpl.
    + now constructor.
    + now apply Permutation_cons_app.
  - intros a. apply filter_In.
  - intros a. rewrite filter_In, negb_true_iff. reflexivity.
  - intros a [H1 H2]. apply filter_In in H1, H2.
    destruct H1 as [_ H1], H2 as [_ H2]. rewrite H1 in H2. discriminate.
  - induction l as [|a l IH]; simpl; [reflexivity|].
    destruct (flag a); simpl; lia.
Qed.

End Wrappers.

(** C10: in every state of the protocol and of the wallet wrapper the
    featured and the non-featured list split the filtered list: together
    they are a rearrangement of it, an item of the filtered list is in the
    featured list exactly when its [isFeatured] flag is set and in the other
    list exactly when it is not, and no item is in both. *)
Theorem featured_partition :
  (forall st : ProtocolSearchState,
      Permutation (filteredProtocols st) (featuredProtocols st ++ nonFeaturedProtocols st)%list /\
      (forall p, In p (featuredProtocols st) <->
                 In p (filteredProtocols st) /\ p_isFeatured p = true) /\
      (forall p, In p (nonFeaturedProtocols st) <->
                 In p (filteredProtocols st) /\ p_isFeatured p = false) /\
      (forall p, ~ (In p (featuredProtocols st) /\ In p (nonFeaturedProtocols st))) /\
      (List.length (featuredProtocols st) + List.length (nonFeaturedProtocols st)
       = List.length (filteredProtocols st))%nat) /\
  (forall st : WalletSearchState,
      Permutation (filteredWallets st) (featuredWallets st ++ nonFeaturedWallets st)%list /\
      (forall w, In w (featuredWallets st) <->
                 In w (filteredWallets st) /\ w_isFeatured w = true) /\
      (forall w, In w (nonFeaturedWallets st) <->
                 In w (filteredWallets st) /\ w_isFeatured w = false) /\
      (forall w, ~ (In w (featuredWallets st) /\ In w (nonFeaturedWallets st))) /\
      (List.length (featuredWallets st) + List.length (nonFeaturedWallets st)
       = List.length (filteredWallets st))%nat).
Proof.
  split; intros st.
  - apply (split_by_flag p_isFeatured).
  - apply (split_by_flag w_isFeatured).
Qed.

Example wallet_search_by_name :
  map w_name
      (filteredWallets
         (walletHandleSearch ascii_toLowerCase
            [ {| w_slug := "ledger"; w_name := "Ledger"; w_description := "";
                 w_isFeatured := true; w_title := ""; w_tag := "" |};
              {| w_slug := "keplr"; w_name := "Keplr"; w_description := "";
                 w_isFeatured := false; w_title := ""; w_tag := "" |} ]
            "LED" (walletSearchInit [])))
  = ["Ledger"].
Proof.
  reflexivity.
Qed.

(** A wallet whose tag contains the query and whose name does not. *)
Definition coldWallet : TSupportedWalletData :=
  {| w_slug := "ledger"; w_name := "Ledger"; w_description := "Hardware wallet";
     w_isFeatured := true; w_title := "Ledger Nano"; w_tag := "cold storage" |}.

(** C1 as stated fails for the wallet wrapper: the tag of [coldWallet]
    contains the query, yet the wrapper, which reads the name, drops it. *)
Lemma wallet_search_ignores_title_and_tag :
  let wallets := [coldWallet] in
  let st := walletHandleSearch ascii_toLowerCase wallets "COLD" (walletSearchInit wallets) in
  In coldWallet wallets /\
  Substring (ascii_toLowerCase "COLD") (ascii_toLowerCase (w_tag coldWallet)) /\
  ~ In coldWallet (filteredWallets st).
Proof.
  cbv zeta. repeat split.
  - now left.
  - apply includes_spec. reflexivity.
  - vm_compute. tauto.
Qed.

End SearchFacts.

(* ------------------------------------------------------------------------- *)
(** ** [ResourceGrid] *)

Module GridFacts.
Import Grid.

Section Cards.
Context {T Node : Type}.

Lemma mapFrom_length (f : T -> nat -> Node) (l : list T) :
  forall index, List.length (mapFrom f index l) = List.length l.
Proof.
  induction l as [|item l IH]; intros index; simpl; [reflexivity|].
  now rewrite IH.
Qed.

(** The card at position [i] is the rendering of the item at position [i]
    with index [i]. *)
Lemma mapFrom_nth (f : T -> nat -> Node) (l : list T) :
  forall index i,
    nth_error (mapFrom f index l) i =
    option_map (fun item => f item (index + i)%nat) (nth_error l i).
Proof.
  induction l as [|item l IH]; intros index i.
  - now destruct i.
  - destruct i as [|i]; simpl.
    + now rewrite Nat.add_0_r.
    + rewrite IH. now rewrite Nat.add_succ_r.
Qed.

(** C6: when [isLoading] is false (passed as [false] or left out), a grid
    whose [items] is [null], [undefined] or an empty array renders the
    empty-state paragraph and no card; the paragraph holds the message the
    caller passed and ["No items available yet."] when none was passed.  A
    grid with a non-empty array renders no message and one card per item:
    the card at each position is [renderItem] of the item at that position
    with that position as index, inside the grid container that carries the
    caller's class name. *)
Theorem ResourceGrid_empty_or_cards (props : TResourceGridProps T Node)
        (Hloaded : isLoading props = None \/ isLoading props = Some false) :
  (items props = ItemsNull \/ items props = ItemsUndefined \/
   items props = ItemsArray [] ->
   (forall message, emptyMessage props = Some message ->
                    ResourceGrid props = EmptyState message) /\
   (emptyMessage props = None ->
    ResourceGrid props = EmptyState "No items available yet.") /\
   cardsOf (ResourceGrid props) = []) /\
  (forall l, items props = ItemsArray l -> l <> [] ->
   messageOf (ResourceGrid props) = None /\
   (exists cards,
      ResourceGrid props
        = GridOf (match className props with Some c => c | None => "" end) cards) /\
   List.length (cardsOf (ResourceGrid props)) = List.length l /\
   forall i, nth_error (cardsOf (ResourceGrid props)) i
             = option_map (fun item => renderItem props item i) (nth_error l i)).
Proof.
  assert (Hflag : withDefault false (isLoading props) = false)
    by (destruct Hloaded as [H|H]; now rewrite H).
  unfold ResourceGrid. rewrite Hflag. split.
  - intros Hnone. cbv zeta.
    destruct Hnone as [H|[H|H]]; rewrite H; (split; [|split]);
      try reflexivity; try (intros message Hm); try (intros Hm);
      now rewrite Hm.
  - intros l H Hne. rewrite H. destruct l as [|item l]; [contradiction|].
    cbn [cardsOf messageOf]. split; [|split; [|split]].
    + reflexivity.
    + eexists. unfold withDefault. reflexivity.
    + apply mapFrom_length.
    + intros i. apply (mapFrom_nth (renderItem props) (item :: l) 0 i).
Qed.

End Cards.

(** Three grids of titles: one without items and without a message of its
    own, one without items whose caller passes the search-miss message, and
    one with two items. *)
Definition emptyGrid : TResourceGridProps string string :=
  {| items := ItemsArray []; renderItem := fun item _ => item;
     isLoading := None; emptyMessage := None; className := None |}.

Definition missGrid : TResourceGridProps string string :=
  {| items := ItemsNull; renderItem := fun item _ => item;
     isLoading := Some false;
     emptyMessage := Some "We couldn't find anything matching your search.";
     className := None |}.

Definition twoCards : TResourceGridProps string string :=
  {| items := ItemsArray ["Ledger"; "Keplr"]; renderItem := fun item _ => item;
     isLoading := Some false; emptyMessage := None; className := None |}.

Lemma ResourceGrid_empty_or_cards_witness :
  ResourceGrid emptyGrid = EmptyState "No items available yet." /\
  ResourceGrid missGrid
    = EmptyState "We couldn't find anything matching your search." /\
  cardsOf (ResourceGrid missGrid) = [] /\
  cardsOf (ResourceGrid twoCards) = ["Ledger"; "Keplr"] /\
  messageOf (ResourceGrid twoCards) = None.
Proof.
  split; [|split; [|split; [|split]]].
  - apply (ResourceGrid_empty_or_cards emptyGrid (or_introl eq_refl)).
    + right; right; reflexivity.
    + reflexivity.
  - apply (proj1 (proj1 (ResourceGrid_empty_or_cards missGrid (or_intror eq_refl))
                        (or_introl eq_refl))).
    reflexivity.
  - apply (proj1 (ResourceGrid_empty_or_cards missGrid (or_intror eq_refl))
                 (or_introl eq_refl)).
  - reflexivity.
  - apply (proj2 (ResourceGrid_empty_or_cards twoCards (or_intror eq_refl))
                 ["Ledger"; "Keplr"] eq_refl).
    discriminate.
Defined.

End GridFacts.

(* ------------------------------------------------------------------------- *)
(** ** The CMS fetch utilities *)

Module FetchFacts.
Import Js FetchUtils.
Local Open Scope js_scope.

(** The shape the six utilities share: one request, the line logged for a
    status that is not OK, what is returned from the [data] field, the line
    logged in [catch]. *)
Definition guarded (request : Request) (notOk : Z -> list string)
           (pick : Value -> Value) (caught : Thrown -> list string) : M Value :=
  tryCatch
    (response <- fetch request ;;
     if negb (ok response) then consoleError (notOk (status response)) ;;; ret Null
     else
       data <- responseJson response ;;
       d <- getProp data "data" ;;
       ret (pick d))
    (fun error => consoleError (caught error) ;;; ret Null).

(** The outcome of a guarded call, by the outcome of its request: what it
    returns, the one request it issued, and what it logged. *)
Inductive Outcome (request : Request) (notOk : Z -> list string)
          (pick : Value -> Value) (caught : Thrown -> list string)
          (net : Network) : Completion Value * Trace -> Prop :=
| NetworkFailed error :
    net request = NetworkError error ->
    Outcome request notOk pick caught net
            (Returns Null, mkTrace [request] [caught error])
| StatusNotOk response :
    net request = Responds response -> ok response = false ->
    Outcome request notOk pick caught net
            (Returns Null, mkTrace [request] [notOk (status response)])
| BodyNotJson response error :
    net request = Responds response -> ok response = true ->
    json response = ParseFails error ->
    Outcome request notOk pick caught net
            (Returns Null, mkTrace [request] [caught error])
| BodyNullish response body error :
    net request = Responds response -> ok response = true ->
    json response = Parsed body -> propOf body "data" = Throws error ->
    Outcome request notOk pick caught net
            (Returns Null, mkTrace [request] [caught error])
| DataReturned response body d :
    net request = Responds response -> ok response = true ->
    json response = Parsed body -> propOf body "data" = Returns d ->
    Outcome request notOk pick caught net
            (Returns (pick d), mkTrace [request] []).

Lemma guarded_outcome request notOk pick caught net :
  Outcome request notOk pick caught net (run (guarded request notOk pick caught) net).
Proof.
  unfold run, guarded, tryCatch, bind, fetch. cbn.
  destruct (net request) as [response|error] eqn:Hnet.
  - destruct (ok response) eqn:Hok; cbn.
    + unfold responseJson.
      destruct (json response) as [body|error] eqn:Hjson; cbn.
      * unfold getProp.
        destruct (propOf body "data") as [d|error] eqn:Hdata.
        -- eapply DataReturned; eauto.
        -- eapply BodyNullish; eauto.
      * eapply BodyNotJson; eauto.
    + eapply StatusNotOk; eauto.
  - eapply NetworkFailed; eauto.
Qed.

(** Each utility is an instance of the shape. *)
Definition requestOf (env : Env) (u : Utility) : Request :=
  match u with
  | FetchAllProtocols => apiConfig env (STRAPI_URL env ++ "/api/supported-protocols?populate=*")
  | FetchAllChains => apiConfig env (STRAPI_URL env ++ "/api/supported-chains?populate=*")
  | FetchAllWallets => apiConfig env (STRAPI_URL env ++ "/api/supported-wallets?populate=*")
  | FetchDiscoverBySlug slug =>
      apiConfig env (STRAPI_URL env ++ "/api/discovers?filters[slug][$eq]=" ++ slug
        ++ "&populate[0]=features&fields[1]=title&fields[2]=description&populate[3]=featuredImg&populate[4]=features.image&fields[5]=tag&populate[6]=features.buttonCta")
  | FetchFaqData =>
      apiConfig env (STRAPI_URL env
        ++ "/api/faq?populate[faqSection][populate][faqSectionItem][populate]=*")
  | FetchWithErrorHandling endpoint queryParams _ =>
      apiConfig env (STRAPI_URL env ++ "/api/" ++ endpoint ++ "?" ++ queryParams)
  end.

(** What each utility makes of the [data] field of the body. *)
Definition pickOf (u : Utility) (d : Value) : Value :=
  match u with
  | FetchDiscoverBySlug _ => or_else (optionalFirst d) Null
  | FetchWithErrorHandling _ _ _ => d
  | _ => or_else d Null
  end.

(** The line each utility logs for a status that is not OK, and the line
    it logs in [catch]. *)
Definition notOkOf (u : Utility) (status : Z) : list string :=
  match u with
  | FetchAllProtocols => ["Failed to fetch protocols: " ++ showNumber status]
  | FetchAllChains => ["Failed to fetch chains: " ++ showNumber status]
  | FetchAllWallets => ["Failed to fetch wallets: " ++ showNumber status]
  | FetchDiscoverBySlug slug =>
      ["Failed to fetch discover data for slug " ++ dquote ++ slug ++ dquote
         ++ ": " ++ showNumber status]
  | FetchFaqData => ["Failed to fetch FAQ data: " ++ showNumber status]
  | FetchWithErrorHandling _ _ errorContext =>
      ["Failed to fetch " ++ errorContext ++ ": Status " ++ showNumber status]
  end.

Definition caughtOf (u : Utility) (error : Thrown) : list string :=
  match u with
  | FetchAllProtocols => ["Error fetching protocols:"; describe error]
  | FetchAllChains => ["Error fetching chains:"; describe error]
  | FetchAllWallets => ["Error fetching wallets:"; describe error]
  | FetchDiscoverBySlug slug =>
      ["Error fetching discover data for slug " ++ dquote ++ slug ++ dquote ++ ":";
       describe error]
  | FetchFaqData => ["Error fetching FAQ data:"; describe error]
  | FetchWithErrorHandling _ _ errorContext =>
      ["Error fetching " ++ errorContext ++ ":"; describe error]
  end.

Lemma call_guarded env u :
  call env u = guarded (requestOf env u) (notOkOf u) (pickOf u) (caughtOf u).
Proof.
  destruct u; reflexivity.
Qed.

(** Every utility, whatever the network does: it returns (it does not
    throw), it has issued exactly its one request, and it returns [null]
    after one logged line when the request fails, the status is not OK or
    the body cannot be read; else it returns what it picks from the [data]
    field and logs nothing. *)
Lemma utilities_total env u net :
  Outcome (requestOf env u) (notOkOf u) (pickOf u) (caughtOf u) net (run (call env u) net).
Proof.
  rewrite call_guarded. apply guarded_outcome.
Qed.

Lemma utilities_never_throw env u net :
  exists v t, run (call env u) net = (Returns v, t) /\
              requests t = [requestOf env u].
Proof.
  destruct (utilities_total env u net); eauto.
Qed.

(** Two failing requests, with the lines they leave on the console. *)
Definition testEnv : Env :=
  {| STRAPI_URL := "https://cms.example"; STRAPI_API_TOKEN := "token" |}.

Example fetchAllProtocols_offline :
  run (fetchAllProtocols testEnv) (fun _ => NetworkError (ErrorInstance "fetch failed"))
  = (Returns Null,
     {| requests := [apiConfig testEnv "https://cms.example/api/supported-protocols?populate=*"];
        console := [["Error fetching protocols:"; "fetch failed"]] |}).
Proof.
  reflexivity.
Qed.

Example fetchFaqData_server_error :
  run (fetchFaqData testEnv)
      (fun _ => Responds {| ok := false; status := 500; json := Parsed Null |})
  = (Returns Null,
     {| requests := [apiConfig testEnv
          "https://cms.example/api/faq?populate[faqSection][populate][faqSectionItem][populate]=*"];
        console := [["Failed to fetch FAQ data: 500"]] |}).
Proof.
  reflexivity.
Qed.

(** A slug query takes the first record of the [data] array. *)
Example fetchDiscoverBySlug_first_record :
  fst (run (fetchDiscoverBySlug testEnv "swap")
           (fun _ => Responds {| ok := true; status := 200;
                                 json := Parsed (Object [("data", Array [Str "first"; Str "second"]);
                                                         ("meta", Object [])]) |}))
  = Returns (Str "first").
Proof.
  reflexivity.
Qed.

(** A CMS that answers every request with status 200 and the body [{}]. *)
Definition answersEmptyObject : Network :=
  fun _ => Responds {| ok := true; status := 200; json := Parsed (Object []) |}.

(** C4, at the input where the code departs from it: for an OK response
    whose body has no [data] field, [fetchWithErrorHandling] returns
    [undefined], where the five utilities of the resources section return
    [null]. *)
Theorem fetchWithErrorHandling_returns_undefined (env : Env)
        (endpoint queryParams errorContext : string) :
  fst (run (fetchWithErrorHandling env endpoint queryParams errorContext) answersEmptyObject)
    = Returns Undefined /\
  fst (run (fetchAllProtocols env) answersEmptyObject) = Returns Null /\
  fst (run (fetchAllChains env) answersEmptyObject) = Returns Null /\
  fst (run (fetchAllWallets env) answersEmptyObject) = Returns Null /\
  fst (run (fetchFaqData env) answersEmptyObject) = Returns Null /\
  (forall slug, fst (run (fetchDiscoverBySlug env slug) answersEmptyObject) = Returns Null).
Proof.
  repeat split.
Qed.

Lemma inline_requests_read env f : isRead (inlineRequest env f).
Proof.
  destruct f; repeat split.
Qed.

Lemma utility_request_read env u : isRead (requestOf env u).
Proof.
  destruct u; repeat split.
Qed.

(** C9: whatever the arguments, the environment and the answers of the
    network, the requests a fetch utility issues, and the request of every
    [fetch] call the pages make themselves, carry no method and no body, so
    they are sent as GET. *)
Theorem every_request_is_a_read (env : Env) :
  (forall u net, Forall isRead (requests (snd (run (call env u) net)))) /\
  (forall f, isRead (inlineRequest env f)).
Proof.
  split.
  - intros u net. destruct (utilities_never_throw env u net) as (v & t & -> & Hreq).
    cbn [snd]. rewrite Hreq. constructor; [apply utility_request_read | constructor].
  - apply inline_requests_read.
Qed.

End FetchFacts.

(* ------------------------------------------------------------------------- *)
(** ** Detail pages *)

Module DetailFacts.
Import Hook Detail.

Lemma find_app {A} (f : A -> bool) (l1 l2 : list A) :
  find f (l1 ++ l2)%list =
  match find f l1 with Some a => Some a | None => find f l2 end.
Proof.
  induction l1 as [|a l1 IH]; simpl; [reflexivity|].
  now destruct (f a).
Qed.

Lemma findBySlug_some slug_ l post :
  findBySlug slug_ l = Some post -> In post l /\ slug post = slug_.
Proof.
  intros H. apply find_some in H. now rewrite String.eqb_eq in H.
Qed.

Lemma findBySlug_none slug_ l :
  findBySlug slug_ l = None <-> forall p, In p l -> slug p <> slug_.
Proof.
  split.
  - intros H p Hin Heq. apply (find_none _ _ H) in Hin.
    rewrite String.eqb_neq in Hin. contradiction.
  - intros H. destruct (findBySlug slug_ l) as [post|] eqn:Hfind; [|reflexivity].
    apply findBySlug_some in Hfind. destruct Hfind as [Hin Heq].
    now apply H in Hin.
Qed.

Lemma findBySlug_cached slug_ l cached :
  In cached l -> slug cached = slug_ -> exists post, findBySlug slug_ l = Some post.
Proof.
  intros Hin Heq. destruct (findBySlug slug_ l) as [post|] eqn:Hfind; [eauto|].
  rewrite findBySlug_none in Hfind. now apply Hfind in Hin.
Qed.

(** The two detail pages are the same function of the cache, the slug and
    the hook. *)
Lemma NewsroomPostPage_as_BlogPost cachedPosts slug_ h :
  NewsroomPostPageArgs cachedPosts slug_ = BlogPostArgs cachedPosts slug_ /\
  NewsroomPostPage cachedPosts slug_ h = BlogPost cachedPosts slug_ h.
Proof.
  split; reflexivity.
Qed.

(** The first element of a list that satisfies a test: the list splits
    around it, no element before it passes the test, and [find] returns it,
    also when more elements follow the list. *)
Lemma find_first {A} (f : A -> bool) (l : list A) (a : A) :
  In a l -> f a = true ->
  exists pre x rest,
    l = (pre ++ x :: rest)%list /\ f x = true /\
    (forall y, In y pre -> f y = false) /\
    forall more, find f (l ++ more)%list = Some x.
Proof.
  induction l as [|b l IH]; intros Hin Hfa; [contradiction|].
  destruct (f b) eqn:Hfb.
  - exists [], b, l.
    split; [reflexivity|]. split; [exact Hfb|]. split; [intros y []|].
    intros more. cbn. now rewrite Hfb.
  - destruct Hin as [<-|Hin]; [congruence|].
    destruct (IH Hin Hfa) as (pre & x & rest & -> & Hx & Hpre & Hfind).
    exists (b :: pre), x, rest.
    split; [reflexivity|]. split; [exact Hx|]. split.
    + intros y [<-|Hy]; [assumption | now apply Hpre].
    + intros more. cbn [app find]. rewrite Hfb. apply Hfind.
Qed.

(** C2: when the cached posts (or cached news) hold an item with the
    requested slug, let [post] be the first such item: it is in the cache,
    its slug is the requested one and no cached item before it has that
    slug.  Then the page passes [skip = true] to its hook; whatever the
    hook returns, the page shows the skeleton while the hook reports
    loading and the content of [post] otherwise, never the not-found
    transition and never another item, and [post] is the first item with
    the requested slug among the cached items followed by the fetched ones.
    Given [skip = true] the hook issues no request, neither on mount nor on
    a later render, and reports that it is not loading, so that the page
    renders [post]. *)
Theorem cached_item_rendered_without_request
        (cachedPosts : list TBlogPost) (slug_ : string) (cached : TBlogPost)
        (Hin : In cached cachedPosts) (Hslug : slug cached = slug_) :
  exists pre post rest,
    cachedPosts = (pre ++ post :: rest)%list /\
    In post cachedPosts /\
    slug post = slug_ /\
    (forall p, In p pre -> slug p <> slug_) /\
    skip (BlogPostArgs cachedPosts slug_) = Some true /\
    skip (NewsroomPostPageArgs cachedPosts slug_) = Some true /\
    (forall h : HookState,
        (cachedPosts ++ posts h = pre ++ post :: (rest ++ posts h))%list /\
        BlogPost cachedPosts slug_ h
          = (if isLoading h then Skeleton else Content post) /\
        NewsroomPostPage cachedPosts slug_ h
          = (if isLoading h then Skeleton else Content post)) /\
    issued (hookEffect (BlogPostArgs cachedPosts slug_) hookMount) = [] /\
    issued (hookEffect (NewsroomPostPageArgs cachedPosts slug_) hookMount) = [] /\
    forall h : HookState,
      let blog := hookEffect (BlogPostArgs cachedPosts slug_) h in
      let news := hookEffect (NewsroomPostPageArgs cachedPosts slug_) h in
      issued blog = issued h /\ isLoading blog = false /\
      BlogPost cachedPosts slug_ blog = Content post /\
      issued news = issued h /\ isLoading news = false /\
      NewsroomPostPage cachedPosts slug_ news = Content post.
Proof.
  assert (Htest : String.eqb (slug cached) slug_ = true)
    by now apply String.eqb_eq.
  destruct (find_first (fun p => String.eqb (slug p) slug_) cachedPosts cached
                       Hin Htest)
    as (pre & post & rest & Hsplit & Hpost & Hpre & Hfind).
  assert (Hcached : findBySlug slug_ cachedPosts = Some post)
    by (unfold findBySlug; rewrite <- (app_nil_r cachedPosts); apply Hfind).
  assert (Hskip : skip (BlogPostArgs cachedPosts slug_) = Some true)
    by (cbn; now rewrite Hcached).
  assert (Hpage : forall h, BlogPost cachedPosts slug_ h
                            = if isLoading h then Skeleton else Content post).
  { intros h. unfold BlogPost, findBySlug. now rewrite Hfind. }
  exists pre, post, rest.
  change (NewsroomPostPageArgs cachedPosts slug_) with (BlogPostArgs cachedPosts slug_).
  change (NewsroomPostPage cachedPosts slug_) with (BlogPost cachedPosts slug_).
  split; [exact Hsplit|]. split; [rewrite Hsplit; apply in_elt|].
  split; [now apply String.eqb_eq|].
  split; [intros p Hp; apply String.eqb_neq; now apply Hpre|].
  split; [exact Hskip|]. split; [exact Hskip|].
  split.
  { intros h. split; [|split]; [|apply Hpage|apply Hpage].
    rewrite Hsplit, <- app_assoc. reflexivity. }
  split; [unfold hookEffect; now rewrite Hskip|].
  split; [unfold hookEffect; now rewrite Hskip|].
  intros h blog news.
  assert (Hblog : issued blog = issued h /\ isLoading blog = false)
    by (unfold blog, hookEffect; rewrite Hskip; split; reflexivity).
  destruct Hblog as [Hissued Hloaded].
  assert (Hshown : BlogPost cachedPosts slug_ blog = Content post)
    by (rewrite Hpage, Hloaded; reflexivity).
  repeat split; assumption.
Qed.

Definition cachedFoxPost : TBlogPost :=
  {| slug := "fox-token"; content := "<p>FOX</p>"; tags := ["dao"];
     publishedAt := "2025-01-01" |}.

Definition cachedRunePost : TBlogPost :=
  {| slug := "rune"; content := "<p>RUNE</p>"; tags := ["thorchain"];
     publishedAt := "2025-02-01" |}.

(** A later copy of the fox post, as a list page may have appended it. *)
Definition staleFoxPost : TBlogPost :=
  {| slug := "fox-token"; content := "<p>FOX, earlier</p>"; tags := [];
     publishedAt := "2024-12-01" |}.

Lemma cached_item_rendered_without_request_witness :
  exists pre post rest,
    [cachedRunePost; cachedFoxPost; staleFoxPost] = (pre ++ post :: rest)%list /\
    post = cachedFoxPost /\
    issued (hookEffect
              (BlogPostArgs [cachedRunePost; cachedFoxPost; staleFoxPost] "fox-token")
              hookMount) = [] /\
    BlogPost [cachedRunePost; cachedFoxPost; staleFoxPost] "fox-token"
             (hookEffect
                (BlogPostArgs [cachedRunePost; cachedFoxPost; staleFoxPost] "fox-token")
                hookMount)
      = Content post.
Proof.
  destruct (cached_item_rendered_without_request
              [cachedRunePost; cachedFoxPost; staleFoxPost] "fox-token" staleFoxPost
              (or_intror (or_intror (or_introl eq_refl))) eq_refl)
    as (pre & post & rest & Hsplit & _ & _ & _ & _ & _ & Hpage & Hnone & _ & Hhook).
  exists pre, post, rest.
  split; [exact Hsplit|]. split; [|split; [exact Hnone|]].
  - pose proof (proj1 (proj2 (Hpage (hookResolve None hookMount)))) as H.
    cbn in H. now inversion H.
  - apply (Hhook hookMount).
Defined.

(** C5: once loading has resolved, a blog or newsroom detail page whose
    cached and fetched items hold no item with the requested slug takes the
    not-found transition, and the content either page renders is always an
    item with the requested slug taken from those items; the protocol page
    takes the not-found transition when the CMS holds no protocol with the
    requested slug (or does not answer), and the protocol it renders always
    has the requested slug. *)
Theorem no_record_is_not_found :
  (forall cachedPosts slug_ (h : HookState),
      isLoading h = false ->
      (forall p, In p (cachedPosts ++ posts h)%list -> slug p <> slug_) ->
      BlogPost cachedPosts slug_ h = NotFound /\
      NewsroomPostPage cachedPosts slug_ h = NotFound) /\
  (forall cachedPosts slug_ (h : HookState) post,
      BlogPost cachedPosts slug_ h = Content post \/
      NewsroomPostPage cachedPosts slug_ h = Content post ->
      slug post = slug_ /\ In post (cachedPosts ++ posts h)%list) /\
  (forall cms slug_,
      (forall records p, cms = Some records -> In p records -> p_slug p <> slug_) ->
      ProtocolPage cms slug_ = NotFound) /\
  (forall cms slug_ protocol,
      ProtocolPage cms slug_ = Content protocol ->
      p_slug protocol = slug_ /\ exists records, cms = Some records /\ In protocol records).
Proof.
  split; [|split; [|split]].
  - intros cachedPosts slug_ h Hloaded Hnone.
    apply findBySlug_none in Hnone.
    unfold NewsroomPostPage, BlogPost. now rewrite Hloaded, Hnone.
  - intros cachedPosts slug_ h post H.
    assert (Hb : BlogPost cachedPosts slug_ h = Content post)
      by (destruct H as [H|H]; exact H).
    unfold BlogPost in Hb. destruct (isLoading h); [discriminate|].
    destruct (findBySlug slug_ (cachedPosts ++ posts h)) as [found|] eqn:Hfind;
      [|discriminate].
    inversion Hb; subst found. apply findBySlug_some in Hfind. tauto.
  - intros cms slug_ Hnone. unfold ProtocolPage, getSupportedProtocol.
    destruct cms as [records|]; [|reflexivity].
    destruct (find _ records) as [p|] eqn:Hfind; [|reflexivity].
    apply find_some in Hfind. destruct Hfind as [Hin Heq].
    apply String.eqb_eq in Heq. now apply (Hnone records p eq_refl) in Hin.
  - intros cms slug_ protocol H. unfold ProtocolPage, getSupportedProtocol in H.
    destruct cms as [records|]; [|discriminate].
    destruct (find _ records) as [p|] eqn:Hfind; [|discriminate].
    inversion H; subst p. apply find_some in Hfind. destruct Hfind as [Hin Heq].
    apply String.eqb_eq in Heq. eauto.
Qed.

Definition aave : TSupportedProtocolData :=
  {| p_slug := "aave"; p_name := "Aave"; p_description := "Lending";
     p_isFeatured := true; p_title := "Aave"; p_tag := "lending" |}.

Lemma no_record_is_not_found_witness :
  BlogPost [cachedFoxPost] "thorchain" (hookResolve None hookMount) = NotFound /\
  ProtocolPage (Some [aave]) "compound" = NotFound /\
  p_slug aave = "aave".
Proof.
  destruct no_record_is_not_found as (Hposts & _ & Hnone & Hshown).
  split; [|split].
  - apply (Hposts [cachedFoxPost] "thorchain" (hookResolve None hookMount) eq_refl).
    intros p [<-|[]]. discriminate.
  - apply (Hnone (Some [aave]) "compound").
    intros records p Hcms Hin. inversion Hcms; subst records.
    destruct Hin as [<-|[]]. discriminate.
  - apply (Hshown (Some [aave]) "aave" aave eq_refl).
Defined.

End DetailFacts.

(* ------------------------------------------------------------------------- *)
(** ** Paginated list pages *)

Module ListPageFacts.
Import Hook ListPage.
Local Open Scope Z_scope.

Section Page.
Variable tag_ : option string.

Lemma optEqb_string_refl (x : option string) : optEqb String.eqb x x = true.
Proof.
  destruct x; simpl; [apply String.eqb_refl | reflexivity].
Qed.

(** Two renders of the same list ask for the same thing exactly when their
    pages are the same. *)
Lemma listArgs_eqb (p q : Z) :
  argsEqb (listArgs tag_ p) (listArgs tag_ q) = (p =? q).
Proof.
  unfold argsEqb, listArgs; cbn.
  rewrite optEqb_string_refl. now rewrite !andb_true_r.
Qed.

(** The hook after a render for page [p], when its last request was for
    page [q]: nothing new for the same page, one more request and the flag
    up for another. *)
Lemma hookEffect_list (p q : Z) (h : HookState) :
  lastArgs h = Some (listArgs tag_ q) ->
  hookEffect (listArgs tag_ p) h =
  if p =? q then h
  else {| posts := posts h; pagination := pagination h; isLoading := true;
          lastArgs := Some (listArgs tag_ p);
          issued := (issued h ++ [listArgs tag_ p])%list |}.
Proof.
  intros Hlast. unfold hookEffect. cbn [skip listArgs].
  rewrite Hlast. cbn [optEqb]. fold (listArgs tag_ p).
  rewrite listArgs_eqb, Z.eqb_sym. reflexivity.
Qed.

(** A render for the page of the last request leaves the hook as it is; a
    render for another page issues a request and shows the skeleton. *)
Lemma render_same (s : State) :
  lastArgs (hook s) = Some (listArgs tag_ (pageState s)) ->
  render tag_ s =
  {| pageState := pageState s; hook := hook s;
     control := if isLoading (hook s) then None
                else Some (match control s with Some index => index | None => 0 end) |}.
Proof.
  intros Hlast. unfold render.
  rewrite (hookEffect_list (pageState s) (pageState s) (hook s) Hlast).
  now rewrite Z.eqb_refl.
Qed.

Lemma render_other (s : State) (q : Z) :
  lastArgs (hook s) = Some (listArgs tag_ q) -> pageState s <> q ->
  render tag_ s =
  {| pageState := pageState s;
     hook := {| posts := posts (hook s); pagination := pagination (hook s);
                isLoading := true;
                lastArgs := Some (listArgs tag_ (pageState s));
                issued := (issued (hook s) ++ [listArgs tag_ (pageState s)])%list |};
     control := None |}.
Proof.
  intros Hlast Hq. unfold render.
  rewrite (hookEffect_list (pageState s) q (hook s) Hlast).
  apply Z.eqb_neq in Hq. now rewrite Hq.
Qed.

(** What every state of a mounted page satisfies: the last request was for
    the page of the state, and the control is on screen exactly when the
    hook is not loading. *)
Definition Inv (s : State) : Prop :=
  lastArgs (hook s) = Some (listArgs tag_ (pageState s)) /\
  (isLoading (hook s) = true <-> control s = None).

Lemma Inv_mount : Inv (mount tag_).
Proof.
  split; [reflexivity | split; reflexivity].
Qed.

Lemma Inv_render (s : State) :
  (exists q, lastArgs (hook s) = Some (listArgs tag_ q)) -> Inv (render tag_ s).
Proof.
  intros [q Hlast]. unfold Inv, render. cbn [hook pageState control].
  rewrite (hookEffect_list (pageState s) q (hook s) Hlast).
  destruct (pageState s =? q) eqn:Hq.
  - apply Z.eqb_eq in Hq. subst q. split; [exact Hlast|].
    destruct (isLoading (hook s)); split; intros H; congruence.
  - cbn. split; [reflexivity | split; reflexivity].
Qed.

Lemma Inv_select (k : Z) (s : State) : Inv s -> Inv (select tag_ k s).
Proof.
  intros HI. unfold select. destruct (control s) as [index|]; [|exact HI].
  destruct (k =? index); [exact HI|].
  apply Inv_render. cbn [hook]. exists (pageState s). apply HI.
Qed.

Lemma Inv_step (s : State) (e : Event) : Inv s -> Inv (step tag_ s e).
Proof.
  intros HI. destruct e as [answer|k| |]; cbn [step].
  - apply Inv_render. cbn [hook]. exists (pageState s).
    destruct answer as [[items meta]|]; apply HI.
  - now apply Inv_select.
  - unfold clickNext. destruct (control s); [|exact HI].
    destruct (_ <? _); [now apply Inv_select | exact HI].
  - unfold clickPrevious. destruct (control s); [|exact HI].
    destruct (_ <? _); [now apply Inv_select | exact HI].
Qed.

Lemma Inv_run (events : list Event) : Inv (run tag_ events).
Proof.
  unfold run. generalize (mount tag_) Inv_mount.
  induction events as [|e events IH]; intros s HI; simpl; [exact HI|].
  apply IH. now apply Inv_step.
Qed.

(** A click that changes the page of a mounted page issues one more
    request, for the new page, and puts the skeleton in place of the list
    and its control. *)
Lemma select_fetches (events : list Event) (k index : Z) :
  let s := run tag_ events in
  control s = Some index -> k <> index -> k + 1 <> pageState s ->
  let s' := step tag_ s (ClickPage k) in
  pageState s' = k + 1 /\
  fetchedPages s' = (fetchedPages s ++ [k + 1])%list /\
  view s' = SkeletonGrid /\ control s' = None.
Proof.
  intros s Hcontrol Hk Hpage s'.
  destruct (Inv_run events) as [Hlast _]. fold s in Hlast.
  subst s'. cbn [step]. unfold select. rewrite Hcontrol.
  apply Z.eqb_neq in Hk. rewrite Hk.
  unfold onPageChange, render, view, fetchedPages. cbn [pageState hook control].
  rewrite (hookEffect_list (k + 1) (pageState s) (hook s) Hlast).
  apply Z.eqb_neq in Hpage. rewrite Hpage. cbn [isLoading issued].
  rewrite map_app. repeat split.
Qed.

(** C3: the handler of the pagination control sets the page state to the
    reported index plus one, and a click on the page with index [k] that
    changes the page issues a request for page [k + 1].  That request puts
    the skeleton in place of the list and of the control, and the answer
    brings up a new control, at index 0.  So with [pageCount = 3] in the
    answers, the first click on next leads to page 2, and the second click
    on next, made on the new control, reports index 1 again: the page state
    stays at 2 and the requests issued are those for pages 1 and 2, none
    for page 3. *)
Theorem second_next_stays_on_page_two :
  (forall (k : Z) (s : State), pageState (onPageChange tag_ k s) = k + 1) /\
  (forall items1 items2,
      let loaded := run tag_ [Answer (Some (items1, mkPagination 3))] in
      let clicked := step tag_ loaded ClickNext in
      let answered := step tag_ clicked (Answer (Some (items2, mkPagination 3))) in
      let s := step tag_ answered ClickNext in
      s = run tag_ [Answer (Some (items1, mkPagination 3)); ClickNext;
                    Answer (Some (items2, mkPagination 3)); ClickNext] /\
      control loaded = Some 0 /\
      pageState clicked = 2 /\ fetchedPages clicked = [1; 2] /\
      view clicked = SkeletonGrid /\ control clicked = None /\
      view answered = Listing items2 3 /\ control answered = Some 0 /\
      pageState s = 2 /\ fetchedPages s = [1; 2] /\ control s = Some 1 /\
      view s = Listing items2 3).
Proof.
  split.
  - reflexivity.
  - intros items1 items2.
    set (meta := mkPagination 3).
    set (first := listArgs tag_ 1). set (second := listArgs tag_ 2).
    set (h1 := mkHook items1 (Some meta) false (Some first) [first]).
    set (h2 := mkHook items1 (Some meta) true (Some second) [first; second]).
    set (h3 := mkHook items2 (Some meta) false (Some second) [first; second]).
    assert (Hloaded : run tag_ [Answer (Some (items1, meta))] = mkState 1 h1 (Some 0)).
    { unfold run. cbn [fold_left step]. now rewrite render_same. }
    assert (Hclicked : step tag_ (mkState 1 h1 (Some 0)) ClickNext = mkState 2 h2 None).
    { cbn [step]. unfold clickNext, select, onPageChange. cbn.
      now rewrite (render_other _ 1). }
    assert (Hanswered : step tag_ (mkState 2 h2 None) (Answer (Some (items2, meta)))
                        = mkState 2 h3 (Some 0)).
    { cbn [step]. now rewrite render_same. }
    assert (Hagain : step tag_ (mkState 2 h3 (Some 0)) ClickNext = mkState 2 h3 (Some 1)).
    { cbn [step]. unfold clickNext, select, onPageChange. cbn.
      now rewrite render_same. }
    cbv zeta.
    change (run tag_ [Answer (Some (items1, meta)); ClickNext;
                      Answer (Some (items2, meta)); ClickNext])
      with (step tag_
              (step tag_
                 (step tag_ (run tag_ [Answer (Some (items1, meta))]) ClickNext)
                 (Answer (Some (items2, meta))))
              ClickNext).
    rewrite Hloaded, Hclicked, Hanswered, Hagain. repeat split.
Qed.

End Page.

(** From the page a visitor sees: three clicks on next, each made once the
    answer to the last one has arrived, are needed before page 3 is
    requested. *)
Example third_next_reaches_page_three :
  let s := ListPage.run None
             [Answer (Some ([], mkPagination 3)); ClickNext;
              Answer (Some ([], mkPagination 3)); ClickNext; ClickNext] in
  pageState s = 3 /\ fetchedPages s = [1; 2; 3].
Proof.
  split; reflexivity.
Qed.

End ListPageFacts.

(* ------------------------------------------------------------------------- *)
(** ** The FAQ scroll-spy *)

Module FaqFacts.
Import Faq.
Local Open Scope Z_scope.

(** *** The order [<] of binary64 values *)

(** A value other than NaN, placed in the lexicographic order of triples of
    integers: the infinities at the ends, the zeros in the middle, a finite
    value by its sign, then its exponent, then its mantissa. *)
Definition key (x : spec_float) : Z * (Z * Z) :=
  match x with
  | S754_nan => (0, (0, 0))
  | S754_infinity true => (-2, (0, 0))
  | S754_infinity false => (2, (0, 0))
  | S754_zero _ => (0, (0, 0))
  | S754_finite true m e => (-1, (- e, - Zpos m))
  | S754_finite false m e => (1, (e, Zpos m))
  end.





Section Order.
Variables a b c : spec_float.
Hypothesis (Ha : a <> S754_nan) (Hb : b <> S754_nan) (Hc : c <> S754_nan).




End Order.


(** *** A difference of numbers is a number *)









(** *** [reduce] *)

(** [reduce] returns its start value or one of the positions. *)
Lemma reduce_closer_in (positions : list SectionPosition) :
  forall closest, In (fold_left closer positions closest) (closest :: positions).
Proof.
  induction positions as [|current positions IH]; intros closest; [now left|].
  cbn [fold_left]. specialize (IH (closer closest current)).
  destruct IH as [H|H]; [|right; now right].
  rewrite <- H. unfold closer.
  destruct (SFltb _ _); [right; now left | now left].
Qed.





(** Three sections with tops -300, 100 and 220: the second and the third
    are at the same distance, 60, from the line. *)
Definition threeSections : State :=
  mounted [("General", Some 0%nat); ("Trading", Some 1%nat); ("Wallets", Some 2%nat)].

Definition measuredTops (element : Element) : number :=
  match element with
  | O => S754_finite true 5277655813324800 (-44)
  | S O => S754_finite false 7036874417766400 (-46)
  | _ => S754_finite false 7740561859543040 (-45)
  end.


(** The tie between the second and the third section goes to the second. *)
Example tie_goes_to_the_earlier_section :
  activeSection (frameCallback measuredTops (handleScroll threeSections)) = "Trading".
Proof.
  vm_compute. reflexivity.
Qed.

(** *** Exact distances *)

(** The rational number a finite binary64 value stands for. *)
Definition exact (x : number) : Q :=
  match x with
  | S754_finite s m e =>
      ((if s then - inject_Z (Zpos m) else inject_Z (Zpos m)) * 2 ^ e)%Q
  | _ => 0%Q
  end.

(** The binary64 values nearest to 31.8 and to 288.2. *)
Definition top31_8 : number := S754_finite false 8950904259398861 (-48).
Definition top288_2 : number := S754_finite false 5070068018000691 (-44).




(** While a click is being followed, [handleScroll] changes nothing: not
    the active section, and no frame is requested. *)
Lemma handleScroll_suppressed (s : State) :
  isManualScrolling s = true -> handleScroll s = s.
Proof.
  intros H. unfold handleScroll. now rewrite H.
Qed.

Lemma scrolls_suppressed (events : list Event) (s : State) :
  isManualScrolling s = true -> Forall isScroll events -> run events s = s.
Proof.
  intros Hmanual Hscroll. unfold run.
  induction Hscroll as [|e events He _ IH]; [reflexivity|].
  destruct e; try contradiction. cbn [fold_left step].
  now rewrite (handleScroll_suppressed s Hmanual).
Qed.

(** C8: a click on the sidebar link of a mounted section sets the active
    section to that section and raises [isManualScrolling]; from then on,
    until the timer lowers the flag, [handleScroll] leaves the whole state
    as it is, so however many scroll events arrive, the active section is
    still the clicked one and no frame has been requested. *)
Theorem click_suppresses_scroll_updates (s : State) (sectionTitle : string)
        (element : Element)
        (Href : refLookup sectionTitle (sectionRefs s) = Some element) :
  let clicked := scrollToSection sectionTitle s in
  activeSection clicked = sectionTitle /\
  isManualScrolling clicked = true /\
  (forall s', isManualScrolling s' = true -> handleScroll s' = s') /\
  (forall events, Forall isScroll events ->
                  run events clicked = clicked /\
                  activeSection (run events clicked) = sectionTitle).
Proof.
  cbn zeta. unfold scrollToSection. rewrite Href.
  split; [reflexivity|]. split; [reflexivity|]. split.
  - apply handleScroll_suppressed.
  - intros events Hscroll. rewrite scrolls_suppressed; auto.
Qed.

Lemma click_suppresses_scroll_updates_witness :
  let clicked := scrollToSection "Wallets" threeSections in
  activeSection (run [Scroll; Scroll; Scroll] clicked) = "Wallets".
Proof.
  cbv zeta.
  destruct (click_suppresses_scroll_updates threeSections "Wallets" 2%nat eq_refl)
    as (_ & _ & _ & Hscrolls).
  apply Hscrolls. repeat constructor.
Defined.

(** With no frame pending at the time of the click, frames change nothing
    either until the timer fires. *)
Lemma no_update_before_timeout (s : State) (sectionTitle : string) (element : Element) :
  refLookup sectionTitle (sectionRefs s) = Some element ->
  rafPending s = false ->
  forall events,
    Forall (fun e => match e with Scroll | Frame _ => True | _ => False end) events ->
    run events (scrollToSection sectionTitle s) = scrollToSection sectionTitle s.
Proof.
  intros Href Hraf events Hev.
  assert (Hm : isManualScrolling (scrollToSection sectionTitle s) = true)
    by (unfold scrollToSection; now rewrite Href).
  assert (Hp : rafPending (scrollToSection sectionTitle s) = false)
    by (unfold scrollToSection; now rewrite Href).
  generalize dependent (scrollToSection sectionTitle s). intros clicked Hm Hp.
  unfold run. induction Hev as [|e events He _ IH]; [reflexivity|].
  destruct e; try contradiction; cbn [fold_left step].
  - now rewrite (handleScroll_suppressed clicked Hm).
  - unfold frameCallback. now rewrite Hp.
Qed.

(** A frame requested by a scroll before the click is not cancelled by the
    click, and its callback does not read the flag: it still sets the
    active section when it runs. *)
Example frame_requested_before_click :
  let clicked := scrollToSection "Wallets" (handleScroll threeSections) in
  activeSection clicked = "Wallets" /\
  isManualScrolling (frameCallback measuredTops clicked) = true /\
  activeSection (frameCallback measuredTops clicked) = "Trading".
Proof.
  repeat split.
Qed.

(** The timer lowers the flag, after which scroll events are followed
    again. *)
Example timeout_resumes_scroll_spy :
  let clicked := scrollToSection "Wallets" threeSections in
  activeSection (run [Frame measuredTops; Timeout; Scroll; Frame measuredTops] clicked)
    = "Trading".
Proof.
  reflexivity.
Qed.

End FaqFacts.

(* ------------------------------------------------------------------------- *)
(** ** The scroll-spy on the machine's numbers *)

Module FaqMachineFacts.
Import Faq FaqFacts.
Import PrimFloat FloatOps.
Local Open Scope float_scope.

(** The same measures on the machine's binary64 numbers: the literals are
    the ones of the model, the subtraction and [Math.abs] are those of
    [SpecFloat], and [<] does not hold between the two distances. *)
Example machine_numbers_agree :
  Prim2SF 160 = n160 /\
  Prim2SF 0x1.fcccccccccccdp+4 = top31_8 /\
  Prim2SF 0x1.2033333333333p+8 = top288_2 /\
  Prim2SF (abs (0x1.fcccccccccccdp+4 - 160)) = SFabs (SFsub 53 1024 top31_8 n160) /\
  Prim2SF (abs (0x1.2033333333333p+8 - 160)) = SFabs (SFsub 53 1024 top288_2 n160) /\
  (abs (0x1.2033333333333p+8 - 160) <? abs (0x1.fcccccccccccdp+4 - 160)) = false.
Proof.
  repeat split; vm_compute; reflexivity.
Qed.

End FaqMachineFacts.

(* ------------------------------------------------------------------------- *)
(** ** Grouping the discover items by type *)

Module DiscoverGroupsFacts.
Import Js DiscoverGroups.

(** The items of one type, in their order. *)
Definition ofType (type_ : string) (items : list TDiscoverData) : list TDiscoverData :=
  filter (fun item => String.eqb (d_type item) type_) items.

(** The reduction when nothing throws. *)
Definition grouped (items : list TDiscoverData) : Groups :=
  fold_left (fun acc item => pushTo (d_type item) item acc) items [].

Lemma groupOf_pushTo (type_ t : string) (item : TDiscoverData) (acc : Groups) :
  groupOf t (pushTo type_ item acc) =
  if String.eqb type_ t
  then Some (match groupOf t acc with Some l => (l ++ [item])%list | None => [item] end)
  else groupOf t acc.
Proof.
  induction acc as [|[k items] acc IH]; cbn [pushTo groupOf].
  - reflexivity.
  - destruct (String.eqb k type_) eqn:Hk; cbn [groupOf].
    + apply String.eqb_eq in Hk. subst k.
      now destruct (String.eqb type_ t).
    + destruct (String.eqb k t) eqn:Hkt; [|exact IH].
      apply String.eqb_eq in Hkt. subst k. now rewrite String.eqb_sym, Hk.
Qed.

Lemma keys_pushTo (type_ : string) (item : TDiscoverData) (acc : Groups) :
  map fst (pushTo type_ item acc) =
  match groupOf type_ acc with
  | Some _ => map fst acc
  | None => (map fst acc ++ [type_])%list
  end.
Proof.
  induction acc as [|[k items] acc IH]; cbn [pushTo groupOf map fst app].
  - reflexivity.
  - destruct (String.eqb k type_) eqn:Hk; cbn [map fst]; [reflexivity|].
    rewrite IH. now destruct (groupOf type_ acc).
Qed.

Lemma groupOf_none_keys (type_ : string) (acc : Groups) :
  groupOf type_ acc = None -> ~ In type_ (map fst acc).
Proof.
  induction acc as [|[k items] acc IH]; cbn [groupOf map fst]; [intros _ []|].
  destruct (String.eqb k type_) eqn:Hk; [discriminate|].
  intros H [Heq|Hin]; [|now apply IH].
  apply String.eqb_neq in Hk. contradiction.
Qed.

Lemma items_pushTo (type_ : string) (item : TDiscoverData) (acc : Groups) :
  Permutation (List.concat (map snd (pushTo type_ item acc))) (List.concat (map snd acc) ++ [item])%list.
Proof.
  induction acc as [|[k items] acc IH]; cbn [pushTo map snd List.concat app].
  - reflexivity.
  - destruct (String.eqb k type_); cbn [map snd List.concat].
    + rewrite <- !app_assoc. apply Permutation_app_head.
      apply Permutation_app_comm.
    + rewrite <- app_assoc. now apply Permutation_app_head.
Qed.

Lemma grouped_snoc (items : list TDiscoverData) (item : TDiscoverData) :
  grouped (items ++ [item]) = pushTo (d_type item) item (grouped items).
Proof.
  unfold grouped. now rewrite fold_left_app.
Qed.

Lemma ofType_snoc (t : string) (items : list TDiscoverData) (item : TDiscoverData) :
  ofType t (items ++ [item]) =
  (ofType t items ++ if String.eqb (d_type item) t then [item] else [])%list.
Proof.
  unfold ofType. rewrite filter_app. cbn [filter]. reflexivity.
Qed.

Lemma grouped_spec (items : list TDiscoverData) :
  (forall t, groupOf t (grouped items) =
             match ofType t items with [] => None | l => Some l end) /\
  NoDup (map fst (grouped items)) /\
  Permutation (List.concat (map snd (grouped items))) items.
Proof.
  induction items as [|item items (Hgroups & Hkeys & Hitems)] using rev_ind.
  - repeat split; constructor.
  - rewrite grouped_snoc. split; [|split].
    + intros t. rewrite groupOf_pushTo, ofType_snoc, Hgroups.
      destruct (String.eqb (d_type item) t).
      * destruct (ofType t items); reflexivity.
      * now rewrite app_nil_r.
    + rewrite keys_pushTo.
      destruct (groupOf (d_type item) (grouped items)) eqn:Hg; [exact Hkeys|].
      apply NoDup_app; [exact Hkeys | repeat constructor; intros [] |].
      intros t Hin [<-|[]]. now apply groupOf_none_keys in Hg.
    + rewrite items_pushTo. now apply Permutation_app_tail.
Qed.

Lemma reduce_returns (items : list TDiscoverData) :
  (forall item, In item items -> isInherited (d_type item) = false) ->
  forall acc,
    fold_left groupStep items (Returns acc) =
    Returns (fold_left (fun acc item => pushTo (d_type item) item acc) items acc).
Proof.
  induction items as [|item items IH]; intros Hok acc; [reflexivity|].
  cbn [fold_left groupStep]. rewrite (Hok item (or_introl eq_refl)).
  apply IH. intros x Hin. apply Hok. now right.
Qed.

Lemma reduce_thrown (items : list TDiscoverData) (error : Thrown) :
  fold_left groupStep items (Throws error) = Throws error.
Proof.
  induction items as [|item items IH]; [reflexivity | exact IH].
Qed.

(** X1: when no shown item has a type named like a member of
    [Object.prototype], the grouping returns an object in which the group of
    a type is exactly the shown items of that type, in their order, and
    there is no group for a type without items; each type has one group,
    and the groups together hold every shown item once. *)
Theorem groups_are_the_items_by_type (items : list TDiscoverData)
        (Hplain : forall item, In item items -> isInherited (d_type item) = false) :
  exists groups,
    groupedDiscover (Some items) = Some (Returns groups) /\
    (forall t, groupOf t groups = match ofType t items with [] => None | l => Some l end) /\
    NoDup (map fst groups) /\
    Permutation (List.concat (map snd groups)) items.
Proof.
  exists (grouped items). split.
  - cbn [groupedDiscover option_map]. now rewrite reduce_returns.
  - apply grouped_spec.
Qed.

Definition swapPage : TDiscoverData :=
  {| d_slug := "swap"; d_title := "Swap"; d_tag := "trade"; d_type := "Features" |}.

Definition earnPage : TDiscoverData :=
  {| d_slug := "earn"; d_title := "Earn"; d_tag := "yield"; d_type := "Products" |}.

Definition bridgePage : TDiscoverData :=
  {| d_slug := "bridge"; d_title := "Bridge"; d_tag := "trade"; d_type := "Features" |}.

Lemma groups_are_the_items_by_type_witness :
  exists groups,
    groupedDiscover (Some [swapPage; earnPage; bridgePage]) = Some (Returns groups) /\
    groupOf "Features" groups = Some [swapPage; bridgePage] /\
    groupOf "Wallets" groups = None.
Proof.
  destruct (groups_are_the_items_by_type [swapPage; earnPage; bridgePage])
    as (groups & Hrun & Hgroups & _).
  - intros item [<-|[<-|[<-|[]]]]; reflexivity.
  - exists groups. split; [exact Hrun|].
    split; rewrite Hgroups; reflexivity.
Defined.

(** X2: when some shown item has a type named like a member of
    [Object.prototype] ([constructor], [toString], [__proto__], ...), the
    grouping throws instead of returning groups. *)
Theorem grouping_throws_on_inherited_name (items : list TDiscoverData)
        (item : TDiscoverData) (Hin : In item items)
        (Hname : isInherited (d_type item) = true) :
  exists error, groupedDiscover (Some items) = Some (Throws error).
Proof.
  enough (H : forall acc, exists error,
               fold_left groupStep items (Returns acc) = Throws error).
  { destruct (H []) as [error He]. exists error.
    exact (f_equal Some He). }
  induction items as [|x items IH]; [contradiction|].
  intros acc. cbn [fold_left groupStep].
  destruct (isInherited (d_type x)) eqn:Hx.
  - rewrite reduce_thrown. eauto.
  - destruct Hin as [->|Hin]; [congruence|]. now apply IH.
Qed.

Lemma grouping_throws_on_inherited_name_witness :
  exists error,
    groupedDiscover
      (Some [swapPage;
             {| d_slug := "x"; d_title := "X"; d_tag := "x"; d_type := "constructor" |}])
    = Some (Throws error).
Proof.
  eapply grouping_throws_on_inherited_name; [right; left; reflexivity | reflexivity].
Defined.

End DiscoverGroupsFacts.

(* ------------------------------------------------------------------------- *)
(** ** Cards, lists and what the search wrappers render *)

Module CardsFacts.
Import JsString JsStringFacts Grid Cards.

Lemma includes_empty (s : string) : includes s "" = true.
Proof.
  apply includes_spec. now exists "", s.
Qed.

(** A grid that is not loading: the message for an empty array, else one
    node per item. *)
Lemma ResourceGrid_array {T Node} (l : list T) (render : T -> Node)
      (message : string) (cls : option string) :
  let grid := ResourceGrid {| items := ItemsArray l; isLoading := None;
                              emptyMessage := Some message; className := cls;
                              renderItem := fun item _ => render item |} in
  cardsOf grid = map render l /\
  messageOf grid = match l with [] => Some message | _ => None end.
Proof.
  cbn zeta. unfold ResourceGrid. cbn [isLoading withDefault items emptyMessage renderItem].
  destruct l as [|item l]; [split; reflexivity|].
  cbn [cardsOf messageOf]. split; [|reflexivity].
  generalize 0%nat. generalize (item :: l). clear.
  intros l; induction l as [|x l IH]; intros n; cbn; [reflexivity|].
  now rewrite IH.
Qed.

Section WithUrl.
Variable STRAPI_URL : string.

(** X3: [ResourceCard] shows the grey placeholder exactly when [imageUrl]
    is missing or empty.  An image it shows has width 100 when [imageWidth]
    is missing or zero and [imageWidth] itself otherwise, and likewise for
    the height, so neither is ever zero; its source is [imageUrl] itself
    when that starts with [http] and [STRAPI_URL] followed by [imageUrl]
    otherwise; its alternative text is [altText] when that is given and not
    empty and the title otherwise, so it is empty only when the title is. *)
Theorem ResourceCard_image (props : TResourceCardProps) :
  (image (ResourceCard STRAPI_URL props) = None <->
   imageUrl props = None \/ imageUrl props = Some "") /\
  forall img,
    image (ResourceCard STRAPI_URL props) = Some img ->
    (imageWidth props = None \/ imageWidth props = Some 0%Z -> width img = 100%Z) /\
    (forall w, imageWidth props = Some w -> w <> 0%Z -> width img = w) /\
    (imageHeight props = None \/ imageHeight props = Some 0%Z -> height img = 100%Z) /\
    (forall h, imageHeight props = Some h -> h <> 0%Z -> height img = h) /\
    width img <> 0%Z /\ height img <> 0%Z /\
    (altText props = None \/ altText props = Some "" -> alt img = title props) /\
    (forall a, altText props = Some a -> a <> "" -> alt img = a) /\
    (alt img = "" -> title props = "") /\
    exists url,
      imageUrl props = Some url /\
      src img = if String.prefix "http" url then url else STRAPI_URL ++ url.
Proof.
  unfold ResourceCard. cbn [image]. split.
  - destruct (imageUrl props) as [url|]; [|split; [now left | reflexivity]].
    destruct (String.eqb url "") eqn:Hurl.
    + apply String.eqb_eq in Hurl. subst url. split; [now right | reflexivity].
    + apply String.eqb_neq in Hurl. split; [discriminate|].
      intros [H|H]; [discriminate|]. injection H as H. contradiction.
  - intros img Himg. destruct (imageUrl props) as [url|]; [|discriminate].
    destruct (String.eqb url ""); [discriminate|].
    inversion Himg; subst img; clear Himg. cbn [width height alt src].
    unfold numOr, withDefault, strOr.
    split; [|split; [|split; [|split; [|split; [|split; [|split; [|split; [|split]]]]]]]].
    + intros [H|H]; now rewrite H.
    + intros w -> Hw. apply Z.eqb_neq in Hw. now rewrite Hw.
    + intros [H|H]; now rewrite H.
    + intros h -> Hh. apply Z.eqb_neq in Hh. now rewrite Hh.
    + destruct (imageWidth props) as [w|]; [|discriminate].
      destruct (w =? 0)%Z eqn:Hw; [discriminate | now apply Z.eqb_neq].
    + destruct (imageHeight props) as [h|]; [|discriminate].
      destruct (h =? 0)%Z eqn:Hh; [discriminate | now apply Z.eqb_neq].
    + intros [H|H]; now rewrite H.
    + intros a -> Ha. apply String.eqb_neq in Ha. now rewrite Ha.
    + destruct (altText props) as [a|]; [|tauto].
      destruct (String.eqb a "") eqn:Ha; [tauto|].
      apply String.eqb_neq in Ha. contradiction.
    + now exists url.
Qed.

Section Lists.
Variable walletImg : TSupportedWalletData -> option TImage.
Variable protocolImg : TSupportedProtocolData -> option TImage.
Variable chainImg : TSupportedChainData -> option TImage.

Lemma positive_length {A} (l : list A) :
  (0 <? List.length l)%nat = match l with [] => false | _ => true end.
Proof.
  now destruct l.
Qed.

(** X4: in every state of the wallet search wrapper, the featured section
    is rendered exactly when some shown wallet is featured; each section
    holds one card per wallet of its list, in order, titled with the
    wallet's name and linking to [/supported-wallets/<slug>]; and when no
    shown wallet is non-featured the main section shows a message instead:
    the search-miss message when the query is not empty (also when featured
    wallets match), ["No wallets available yet."] when it is. *)
Theorem wallet_wrapper_sections (st : Search.WalletSearchState) :
  let linkOf := fun w => "/supported-wallets/" ++ w_slug w in
  (featuredSection (WalletSearchWrapper STRAPI_URL walletImg st) = None <-> Search.featuredWallets st = []) /\
  (forall section, featuredSection (WalletSearchWrapper STRAPI_URL walletImg st) = Some section ->
     map href (cardsOf section) = map linkOf (Search.featuredWallets st) /\
     map heading (cardsOf section) = map w_name (Search.featuredWallets st)) /\
  map href (cardsOf (mainSection (WalletSearchWrapper STRAPI_URL walletImg st)))
    = map linkOf (Search.nonFeaturedWallets st) /\
  map heading (cardsOf (mainSection (WalletSearchWrapper STRAPI_URL walletImg st)))
    = map w_name (Search.nonFeaturedWallets st) /\
  messageOf (mainSection (WalletSearchWrapper STRAPI_URL walletImg st))
    = match Search.nonFeaturedWallets st with
      | [] => Some (if String.eqb (Search.walletSearchQuery st) ""
                    then "No wallets available yet." else searchMiss)
      | _ => None
      end.
Proof.
  cbn zeta. unfold WalletSearchWrapper. cbn [featuredSection mainSection].
  rewrite positive_length. unfold WalletList.
  split; [|split; [|split; [|split]]].
  - destruct (Search.featuredWallets st); split; intros H; congruence.
  - intros section Hsection.
    destruct (Search.featuredWallets st) as [|w l] eqn:Hl; [discriminate|].
    inversion Hsection; subst section; clear Hsection.
    destruct (ResourceGrid_array (w :: l) (fun x => walletCard STRAPI_URL walletImg x 0)
                                 (emptyMessageFor
                                    (Some (nonEmpty (Search.walletSearchQuery st)))
                                    "No wallets available yet.") None) as [Hcards _].
    cbn zeta in Hcards. unfold walletCard in *. rewrite Hcards, !map_map. split; reflexivity.
  - destruct (ResourceGrid_array (Search.nonFeaturedWallets st)
                                 (fun x => walletCard STRAPI_URL walletImg x 0)
                                 (emptyMessageFor
                                    (Some (nonEmpty (Search.walletSearchQuery st)))
                                    "No wallets available yet.") None) as [Hcards _].
    cbn zeta in Hcards. unfold walletCard in *. rewrite Hcards, !map_map. reflexivity.
  - destruct (ResourceGrid_array (Search.nonFeaturedWallets st)
                                 (fun x => walletCard STRAPI_URL walletImg x 0)
                                 (emptyMessageFor
                                    (Some (nonEmpty (Search.walletSearchQuery st)))
                                    "No wallets available yet.") None) as [Hcards _].
    cbn zeta in Hcards. unfold walletCard in *. rewrite Hcards, !map_map. reflexivity.
  - destruct (ResourceGrid_array (Search.nonFeaturedWallets st)
                                 (fun x => walletCard STRAPI_URL walletImg x 0)
                                 (emptyMessageFor
                                    (Some (nonEmpty (Search.walletSearchQuery st)))
                                    "No wallets available yet.") None) as [_ Hmsg].
    cbn zeta in Hmsg. unfold walletCard in *. rewrite Hmsg.
    unfold emptyMessageFor, withDefault, nonEmpty.
    destruct (Search.nonFeaturedWallets st); [|reflexivity].
    now destruct (String.eqb _ "").
Qed.

(** X5: the protocol search wrapper renders the same way: the featured
    section exactly when some shown protocol is featured, one card per
    protocol linking to [/supported-protocols/<slug>], and in an empty main
    section the search-miss message when the query is not empty,
    ["No protocols available yet."] when it is. *)
Theorem protocol_wrapper_sections (st : Search.ProtocolSearchState) :
  let linkOf := fun p => "/supported-protocols/" ++ p_slug p in
  (featuredSection (ProtocolSearchWrapper STRAPI_URL protocolImg st) = None <-> Search.featuredProtocols st = []) /\
  (forall section, featuredSection (ProtocolSearchWrapper STRAPI_URL protocolImg st) = Some section ->
     map href (cardsOf section) = map linkOf (Search.featuredProtocols st)) /\
  map href (cardsOf (mainSection (ProtocolSearchWrapper STRAPI_URL protocolImg st)))
    = map linkOf (Search.nonFeaturedProtocols st) /\
  messageOf (mainSection (ProtocolSearchWrapper STRAPI_URL protocolImg st))
    = match Search.nonFeaturedProtocols st with
      | [] => Some (if String.eqb (Search.protocolSearchQuery st) ""
                    then "No protocols available yet." else searchMiss)
      | _ => None
      end.
Proof.
  cbn zeta. unfold ProtocolSearchWrapper. cbn [featuredSection mainSection].
  rewrite positive_length. unfold ProtocolList.
  split; [|split; [|split]].
  - destruct (Search.featuredProtocols st); split; intros H; congruence.
  - intros section Hsection.
    destruct (Search.featuredProtocols st) as [|p l] eqn:Hl; [discriminate|].
    inversion Hsection; subst section; clear Hsection.
    destruct (ResourceGrid_array (p :: l) (fun x => protocolCard STRAPI_URL protocolImg x 0)
                                 (emptyMessageFor
                                    (Some (nonEmpty (Search.protocolSearchQuery st)))
                                    "No protocols available yet.") None) as [Hcards _].
    cbn zeta in Hcards. unfold protocolCard in *. rewrite Hcards, !map_map. reflexivity.
  - destruct (ResourceGrid_array (Search.nonFeaturedProtocols st)
                                 (fun x => protocolCard STRAPI_URL protocolImg x 0)
                                 (emptyMessageFor
                                    (Some (nonEmpty (Search.protocolSearchQuery st)))
                                    "No protocols available yet.") None) as [Hcards _].
    cbn zeta in Hcards. unfold protocolCard in *. rewrite Hcards, !map_map. reflexivity.
  - destruct (ResourceGrid_array (Search.nonFeaturedProtocols st)
                                 (fun x => protocolCard STRAPI_URL protocolImg x 0)
                                 (emptyMessageFor
                                    (Some (nonEmpty (Search.protocolSearchQuery st)))
                                    "No protocols available yet.") None) as [_ Hmsg].
    cbn zeta in Hmsg. unfold protocolCard in *. rewrite Hmsg.
    unfold emptyMessageFor, withDefault, nonEmpty.
    destruct (Search.nonFeaturedProtocols st); [|reflexivity].
    now destruct (String.eqb _ "").
Qed.

End Lists.
End WithUrl.

End CardsFacts.

(* ------------------------------------------------------------------------- *)
(** ** The chain search wrapper and clearing a search *)

Module ChainSearchFacts.
Import JsString JsStringFacts Grid Cards ChainSearch.

Lemma filter_all {A} (f : A -> bool) (l : list A) :
  (forall a, f a = true) -> filter f l = l.
Proof.
  intros Hf. induction l as [|a l IH]; cbn; [reflexivity|].
  now rewrite Hf, IH.
Qed.

Section Wrapper.
Variable toLowerCase : string -> string.

(** X6: the chain search wrapper shows exactly the chains that pass both
    filters: the selected type is ["All chains"] or equals the chain's
    [typeOfChain], and the lowercased name contains the lowercased query. *)
Theorem chain_filter_criteria (chains : list TSupportedChainData) (st : State)
        (chain : TSupportedChainData) :
  In chain (filteredChains toLowerCase chains st) <->
  In chain chains /\
  (selectedType st = "All chains" \/ c_typeOfChain chain = selectedType st) /\
  Substring (toLowerCase (searchQuery st)) (toLowerCase (c_name chain)).
Proof.
  unfold filteredChains, chainsByType. rewrite !filter_In, includes_spec.
  destruct (String.eqb (selectedType st) "All chains") eqn:Hall.
  - apply String.eqb_eq in Hall. tauto.
  - apply String.eqb_neq in Hall. rewrite String.eqb_eq. tauto.
Qed.

Section View.
Variable STRAPI_URL : string.
Variable chainImg : TSupportedChainData -> option TImage.

(** X7: the chain list holds one card per shown chain, in order, linking
    to [/supported-chains/<slug>]; when no chain is shown it holds a message
    that depends on the query alone: the search-miss message when the query
    is not empty, ["No blockchain networks available yet."] when it is, also
    when it is the selected type that excludes every chain. *)
Theorem chain_wrapper_list (chains : list TSupportedChainData) (st : State) :
  let shown := filteredChains toLowerCase chains st in
  let view := ChainSearchWrapper STRAPI_URL chainImg toLowerCase chains st in
  map href (cardsOf view) = map (fun c => "/supported-chains/" ++ c_slug c) shown /\
  map heading (cardsOf view) = map c_name shown /\
  messageOf view
    = match shown with
      | [] => Some (if String.eqb (searchQuery st) ""
                    then "No blockchain networks available yet." else searchMiss)
      | _ => None
      end.
Proof.
  cbn zeta. unfold ChainSearchWrapper, ChainList.
  destruct (CardsFacts.ResourceGrid_array
              (filteredChains toLowerCase chains st)
              (fun x => chainCard STRAPI_URL chainImg x 0)
              (emptyMessageFor (Some (nonEmpty (searchQuery st)))
                               "No blockchain networks available yet.") None)
    as [Hcards Hmsg].
  cbn zeta in Hcards, Hmsg. unfold chainCard in *.
  rewrite Hcards, Hmsg, !map_map. repeat split.
  unfold emptyMessageFor, withDefault, nonEmpty.
  destruct (filteredChains toLowerCase chains st); [|reflexivity].
  now destruct (String.eqb _ "").
Qed.

End View.

(** X8: with a lowering that keeps the empty string empty, an empty query
    hides nothing: the chain wrapper in its initial state shows every chain,
    the discover wrapper with an empty query shows every item, and
    [handleSearch] with the empty query gives the protocol and wallet
    wrappers back their whole list, whatever was shown before. *)
Theorem empty_query_shows_everything (Hempty : toLowerCase "" = "") :
  (forall chains, filteredChains toLowerCase chains init = chains) /\
  (forall discover, Search.filteredDiscover toLowerCase (Some discover) "" = Some discover) /\
  (forall protocols st,
      Search.filteredProtocols (Search.protocolHandleSearch toLowerCase protocols "" st)
      = protocols) /\
  (forall wallets st,
      Search.filteredWallets (Search.walletHandleSearch toLowerCase wallets "" st)
      = wallets).
Proof.
  split; [|split; [|split]].
  - intros chains. unfold filteredChains, chainsByType, init. cbn [searchQuery selectedType].
    rewrite Hempty. cbn [String.eqb]. rewrite !filter_all; auto using CardsFacts.includes_empty.
  - intros discover. unfold Search.filteredDiscover, Search.discoverMatches. cbn [option_map].
    rewrite Hempty, filter_all; [reflexivity|].
    intros a. now rewrite CardsFacts.includes_empty.
  - intros protocols st. unfold Search.protocolHandleSearch. cbn [Search.filteredProtocols].
    rewrite Hempty. apply filter_all. intros a. apply CardsFacts.includes_empty.
  - intros wallets st. unfold Search.walletHandleSearch. cbn [Search.filteredWallets].
    rewrite Hempty. apply filter_all. intros a. apply CardsFacts.includes_empty.
Qed.

End Wrapper.

Definition someChains : list TSupportedChainData :=
  [ {| c_slug := "ethereum"; c_name := "Ethereum"; c_description := "";
       c_typeOfChain := "EVM" |};
    {| c_slug := "bitcoin"; c_name := "Bitcoin"; c_description := "";
       c_typeOfChain := "UTXO" |} ].

Lemma empty_query_shows_everything_witness :
  filteredChains ascii_toLowerCase someChains init = someChains.
Proof.
  apply (empty_query_shows_everything ascii_toLowerCase eq_refl).
Defined.

Example evm_chains_named_eth :
  map c_slug (filteredChains ascii_toLowerCase someChains (mkState "ETH" "EVM"))
  = ["ethereum"] /\
  map c_slug (filteredChains ascii_toLowerCase someChains (mkState "ETH" "UTXO")) = [].
Proof.
  split; reflexivity.
Qed.

End ChainSearchFacts.

(* ------------------------------------------------------------------------- *)
(** ** More on the fetch utilities *)

Module FetchExtraFacts.
Import Js FetchUtils FetchFacts.

(** X9: each of the six utilities, for every answer of the network, returns
    without throwing after exactly one request.  After a network error, a
    status that is not OK, a body that is not JSON or a body that is [null]
    it returns [null] and has written exactly one line to the console (the
    status line or the line of its [catch]); otherwise it returns what it
    makes of the [data] field and has written nothing. *)
Theorem utilities_fail_soft (env : Env) (u : Utility) (net : Network) :
  exists v lines,
    run (call env u) net = (Returns v, mkTrace [requestOf env u] lines) /\
    match net (requestOf env u) with
    | NetworkError error => v = Null /\ lines = [caughtOf u error]
    | Responds response =>
        if ok response then
          match json response with
          | ParseFails error => v = Null /\ lines = [caughtOf u error]
          | Parsed body =>
              match propOf body "data" with
              | Throws error => v = Null /\ lines = [caughtOf u error]
              | Returns d => v = pickOf u d /\ lines = []
              end
          end
        else v = Null /\ lines = [notOkOf u (status response)]
    end.
Proof.
  destruct (utilities_total env u net)
    as [error Hnet|response Hnet Hok|response error Hnet Hok Hjson
        |response body error Hnet Hok Hjson Hdata|response body d Hnet Hok Hjson Hdata];
    do 2 eexists; (split; [reflexivity|]); rewrite Hnet; try rewrite Hok;
    try rewrite Hjson; try rewrite Hdata; split; reflexivity.
Qed.

(** The five utilities of the resources section. *)
Definition ofResources (u : Utility) : bool :=
  match u with
  | FetchWithErrorHandling _ _ _ => false
  | _ => true
  end.

Lemma or_else_null (d : Value) : or_else d Null = Null \/ truthy (or_else d Null) = true.
Proof.
  unfold or_else. destruct (truthy d) eqn:Hd; [right; exact Hd | left; reflexivity].
Qed.

(** X10: the five utilities of the resources section return [null] or a
    truthy value, whatever the network answers: never [undefined], [false],
    [0] or the empty string. *)
Theorem resource_utilities_null_or_truthy (env : Env) (u : Utility) (net : Network)
        (Hu : ofResources u = true) :
  exists v t, run (call env u) net = (Returns v, t) /\ (v = Null \/ truthy v = true).
Proof.
  destruct (utilities_total env u net); do 2 eexists; (split; [reflexivity|]);
    try (left; reflexivity).
  destruct u; try discriminate; apply or_else_null.
Qed.

Lemma resource_utilities_null_or_truthy_witness :
  exists v t,
    run (call testEnv FetchFaqData)
        (fun _ => Responds {| ok := true; status := 200;
                              json := Parsed (Object [("data", Number 0)]) |})
    = (Returns v, t) /\ (v = Null \/ truthy v = true).
Proof.
  apply resource_utilities_null_or_truthy. reflexivity.
Defined.

(** A URL of the CMS. *)
Definition toStrapi (env : Env) (r : Request) : Prop :=
  exists rest, url r = STRAPI_URL env ++ rest.

Lemma utility_request_toStrapi env u : toStrapi env (requestOf env u).
Proof.
  destruct u; cbn [requestOf apiConfig url]; eexists; reflexivity.
Qed.

(** X11: a request that carries a header (the bearer token is the only
    header the code sets) goes to a URL that starts with [STRAPI_URL]: so
    for the one request of each utility and for every [fetch] call the pages
    make themselves, the two calls to the other blogging host carrying no
    header at all. *)
Theorem token_goes_to_the_cms_only (env : Env) :
  (forall u net r,
      In r (requests (snd (run (call env u) net))) ->
      headers r = [("Authorization", "Bearer " ++ STRAPI_API_TOKEN env)] /\
      toStrapi env r) /\
  (forall f,
      (headers (inlineRequest env f) = [("Authorization", "Bearer " ++ STRAPI_API_TOKEN env)] /\
       toStrapi env (inlineRequest env f)) \/
      headers (inlineRequest env f) = []) /\
  (forall slug, headers (inlineRequest env (GhostPost slug)) = []) /\
  headers (inlineRequest env GhostPosts) = [].
Proof.
  split; [|split; [|split]].
  - intros u net r Hin.
    destruct (utilities_never_throw env u net) as (v & t & Hrun & Hreq).
    rewrite Hrun in Hin. cbn [snd] in Hin. rewrite Hreq in Hin.
    destruct Hin as [<-|[]]. split; [|apply utility_request_toStrapi].
    now destruct u.
  - intros f.
    destruct f; try (right; reflexivity); left; (split; [reflexivity|]);
      eexists; cbn; reflexivity.
  - reflexivity.
  - reflexivity.
Qed.

End FetchExtraFacts.

(* ------------------------------------------------------------------------- *)
(** ** [generateMetadata] of the protocol page *)

Module ProtocolMetadataFacts.
Import Js FetchUtils ProtocolMetadata.

Section WithEnv.
Variable env : Env.
Variable ToString : Value -> string.

(** X12: [generateMetadata] of the protocol page.  For an empty slug it
    calls [notFound()] without a request.  For any other slug it issues
    exactly one request and writes nothing to the console; it has no
    [catch] and does not read the status, so a network error and a body
    that is not JSON are thrown on to the caller, as is the [TypeError] of a
    body whose [data] is [null] or missing; an empty [data] array gives
    [notFound()]; and a first record without [featuredImg] makes it throw
    instead of returning metadata. *)
Theorem protocol_metadata_outcomes :
  (forall net, run (generateMetadata env ToString "") net
               = (Returns NotFoundCalled, emptyTrace)) /\
  (forall slug net, slug <> "" ->
     exists outcome,
       run (generateMetadata env ToString slug) net
       = (outcome, mkTrace [protocolMetadataRequest env slug] [])) /\
  (forall slug net error, slug <> "" ->
     net (protocolMetadataRequest env slug) = NetworkError error ->
     fst (run (generateMetadata env ToString slug) net) = Throws error) /\
  (forall slug net response, slug <> "" ->
     net (protocolMetadataRequest env slug) = Responds response ->
     match json response with
     | ParseFails error =>
         fst (run (generateMetadata env ToString slug) net) = Throws error
     | Parsed (Object fields) =>
         match lookup "data" fields with
         | Array [] =>
             fst (run (generateMetadata env ToString slug) net) = Returns NotFoundCalled
         | Undefined | Null =>
             exists error,
               fst (run (generateMetadata env ToString slug) net) = Throws error
         | Array (Object record :: _) =>
             lookup "featuredImg" record = Undefined ->
             exists error,
               fst (run (generateMetadata env ToString slug) net) = Throws error
         | _ => True
         end
     | Parsed _ => True
     end).
Proof.
  split; [|split; [|split]].
  - reflexivity.
  - intros slug net Hslug. apply String.eqb_neq in Hslug.
    unfold run, generateMetadata. rewrite Hslug.
    unfold bind, fetch, responseJson, getProp, getIndex0, ret, throw. cbn.
    destruct (net (protocolMetadataRequest env slug)) as [response|error];
      [|eexists; reflexivity].
    destruct (json response) as [body|error]; [|eexists; reflexivity].
    destruct (propOf body "data") as [d|error]; [|eexists; reflexivity].
    destruct d as [| |b|q|s|l|fields]; cbn; try (eexists; reflexivity).
    all: match goal with
         | |- context [truthy ?v] => destruct (truthy v) eqn:Ht; cbn
         | _ => idtac
         end; try (eexists; reflexivity).
    all: repeat match goal with
         | |- context [propOf ?v ?k] => destruct (propOf v k); cbn
         end; eexists; reflexivity.
  - intros slug net error Hslug Hnet. apply String.eqb_neq in Hslug.
    unfold run, generateMetadata. rewrite Hslug.
    unfold bind, fetch. cbn. now rewrite Hnet.
  - intros slug net response Hslug Hnet. apply String.eqb_neq in Hslug.
    unfold run, generateMetadata. rewrite Hslug.
    unfold bind, fetch, responseJson, getProp, getIndex0, ret, throw. cbn. rewrite Hnet.
    destruct (json response) as [body|error]; [|reflexivity].
    destruct body; try exact I. cbn [propOf].
    destruct (lookup "data" fields) as [| |b|q|s|l|record]; try exact I;
      try (eexists; reflexivity).
    destruct l as [|first l]; [reflexivity|].
    destruct first; try exact I.
    intros Himg. cbn. rewrite Himg. cbn. eexists; reflexivity.
Qed.

End WithEnv.

(** A CMS whose record for the slug has no image. *)
Example protocol_without_image_throws :
  fst (run (generateMetadata FetchFacts.testEnv (fun _ => "") "aave")
           (fun _ => Responds
                       {| ok := true; status := 200;
                          json := Parsed (Object [("data",
                                    Array [Object [("name", Str "Aave")]])]) |}))
  = Throws (ErrorInstance "Cannot read properties of undefined (reading 'formats')").
Proof.
  reflexivity.
Qed.

End ProtocolMetadataFacts.

(* ------------------------------------------------------------------------- *)
(** ** Structured data *)

Module SchemaFacts.
Import Js Schema.

(** [v.key] on a schema object. *)
Definition field (key : string) (v : Value) : Value :=
  match v with
  | Object fields => lookup key fields
  | _ => Undefined
  end.

Fixpoint hasSlash (s : string) : bool :=
  match s with
  | EmptyString => false
  | String c s' => Ascii.eqb c "/"%char || hasSlash s'
  end.

Lemma append_nonempty_r (a b : string) : b <> "" -> a ++ b <> "".
Proof.
  intros Hb H. destruct a; cbn in H; [contradiction | discriminate].
Qed.

Lemma strOr_nonempty (s : option string) (dflt : string) : dflt <> "" -> strOr s dflt <> "".
Proof.
  intros Hd. unfold strOr. destruct s as [s|]; [|exact Hd].
  destruct (String.eqb s "") eqn:Hs; [exact Hd | now apply String.eqb_neq].
Qed.

Lemma missing_false (s : option string) :
  missing s = false -> exists v, s = Some v /\ v <> "" /\ strOr s "" = v.
Proof.
  destruct s as [v|]; cbn; [|discriminate].
  intros Hv. exists v. rewrite Hv. apply String.eqb_neq in Hv. auto.
Qed.

Section WithEnv.
Variable NEXT_PUBLIC_STRAPI_URL : option string.
Variable NEXT_PUBLIC_SITE_URL : option string.

(** X13: [generateBlogPostSchema] returns the empty object exactly when the
    post, its title or its slug is missing or empty.  Otherwise the
    headline is the title, the URL is [baseUrl/blog/slug] and is also the
    [@id] of the main entity, the modification date falls back to the
    publication date, and the image and the article section are never
    empty. *)
Theorem blog_schema_fields (post : SchemaPost) (baseUrl : string) :
  let schema := generateBlogPostSchema NEXT_PUBLIC_STRAPI_URL (Some post) baseUrl in
  generateBlogPostSchema NEXT_PUBLIC_STRAPI_URL None baseUrl = Object [] /\
  (schema = Object [] <-> missing (sp_title post) = true \/ missing (sp_slug post) = true) /\
  (missing (sp_title post) = false -> missing (sp_slug post) = false ->
   exists title slug,
     sp_title post = Some title /\ sp_slug post = Some slug /\
     field "headline" schema = Str title /\
     field "url" schema = Str (baseUrl ++ "/blog/" ++ slug) /\
     field "@id" (field "mainEntityOfPage" schema) = field "url" schema /\
     field "datePublished" schema = Str (sp_publishedAt post) /\
     (missing (sp_updatedAt post) = true ->
      field "dateModified" schema = field "datePublished" schema) /\
     (exists image, field "image" schema = Str image /\ image <> "") /\
     (exists section, field "articleSection" schema = Str section /\ section <> "")).
Proof.
  cbn zeta. unfold generateBlogPostSchema. split; [reflexivity|]. split.
  - rewrite <- orb_true_iff.
    destruct (missing (sp_title post) || missing (sp_slug post)); split;
      intros H; try reflexivity; discriminate.
  - intros Ht Hs. rewrite Ht, Hs. cbn [orb].
    destruct (missing_false _ Ht) as (title & Htitle & _ & Htitle').
    destruct (missing_false _ Hs) as (slug & Hslug & _ & Hslug').
    exists title, slug. rewrite Htitle', Hslug'. cbn [field lookup String.eqb Ascii.eqb Bool.eqb].
    repeat split; try assumption.
    + intros Hup. unfold strOr, missing in *. destruct (sp_updatedAt post) as [u|]; [|reflexivity].
      now rewrite Hup.
    + eexists. split; [reflexivity|].
      destruct (missing (sp_featuredImgUrl post)) eqn:Hi.
      * apply append_nonempty_r. discriminate.
      * destruct (missing_false _ Hi) as (url & _ & Hurl & ->).
        now apply append_nonempty_r.
    + eexists. split; [reflexivity|]. apply strOr_nonempty. discriminate.
Qed.

Lemma hasSlash_snoc (s : string) (c : ascii) :
  hasSlash (s ++ String c "") = hasSlash s || Ascii.eqb c "/"%char.
Proof.
  induction s as [|d s IH]; cbn; [now rewrite orb_false_r|].
  now rewrite IH, orb_assoc.
Qed.

Lemma append_nil_r (s : string) : s ++ "" = s.
Proof.
  induction s as [|c s IH]; cbn; [reflexivity | now rewrite IH].
Qed.

Lemma append_assoc (a b c : string) : (a ++ b) ++ c = a ++ b ++ c.
Proof.
  induction a as [|d a IH]; cbn; [reflexivity | now rewrite IH].
Qed.

Lemma lastSegmentFrom_spec (s segment : string) :
  hasSlash segment = false ->
  hasSlash (lastSegmentFrom segment s) = false /\
  exists before, segment ++ s = before ++ lastSegmentFrom segment s.
Proof.
  revert segment. induction s as [|c s IH]; intros segment Hseg; cbn [lastSegmentFrom].
  - split; [exact Hseg|]. exists "". now rewrite append_nil_r.
  - destruct (Ascii.eqb c "/"%char) eqn:Hc.
    + destruct (IH "" eq_refl) as [Hno [before Hbefore]]. split; [exact Hno|].
      exists (segment ++ String c before). cbn in Hbefore.
      rewrite append_assoc. cbn. now rewrite <- Hbefore.
    + destruct (IH (segment ++ String c "")) as [Hno [before Hbefore]].
      * now rewrite hasSlash_snoc, Hseg, Hc.
      * split; [exact Hno|]. exists before.
        rewrite <- Hbefore, append_assoc. reflexivity.
Qed.

Lemma listItems_positions (features : list (string * string)) :
  forall index,
    map (field "position") (listItems index features) =
    map (fun k => Number (inject_Z (Z.of_nat k + 1))) (seq index (List.length features)) /\
    map (field "name") (listItems index features) = map (fun f => Str (fst f)) features.
Proof.
  induction features as [|[title description] features IH]; intros index;
    [split; reflexivity|].
  destruct (IH (S index)) as [Hpos Hname].
  cbn [listItems map seq List.length fst]. rewrite Hpos, Hname. split; reflexivity.
Qed.

(** X14: [generateProductSchema] returns the empty object exactly when the
    title or the page URL is empty.  Otherwise its [id] is never empty,
    holds no slash, and is either the end of the page URL or the default
    [shapeshift-product]; there is no feature list when no feature is given;
    and when features are given the list numbers them 1, 2, ... in their
    order, under their titles. *)
Theorem product_schema_fields (title description : string) (featuredImage : option string)
        (pageURL : string) (features : option (list (string * string))) :
  let schema := generateProductSchema NEXT_PUBLIC_SITE_URL title description
                                      featuredImage pageURL features in
  let given := match features with Some l => l | None => [] end in
  (schema = Object [] <-> title = "" \/ pageURL = "") /\
  (title <> "" -> pageURL <> "" ->
   (exists id, field "id" schema = Str id /\ id <> "" /\ hasSlash id = false /\
               (id = "shapeshift-product" \/ exists before, pageURL = before ++ id)) /\
   (given = [] -> field "featureList" schema = Undefined) /\
   (given <> [] ->
    exists elements,
      field "itemListElement" (field "featureList" schema) = Array elements /\
      map (field "position") elements
        = map (fun k => Number (inject_Z (Z.of_nat k + 1))) (seq 0 (List.length given)) /\
      map (field "name") elements = map (fun f => Str (fst f)) given)).
Proof.
  cbn zeta. unfold generateProductSchema. split.
  - destruct (String.eqb title "") eqn:Ht; [apply String.eqb_eq in Ht; cbn; tauto|].
    destruct (String.eqb pageURL "") eqn:Hp; [apply String.eqb_eq in Hp; cbn; tauto|].
    apply String.eqb_neq in Ht, Hp. cbn [orb]. split; [discriminate | tauto].
  - intros Ht Hp. apply String.eqb_neq in Ht, Hp. rewrite Ht, Hp. cbn [orb].
    split; [|split].
    + eexists. split; [reflexivity|].
      destruct (lastSegmentFrom_spec pageURL "" eq_refl) as [Hno [before Hbefore]].
      fold (lastSegment pageURL) in Hno, Hbefore. cbn [strOr].
      destruct (String.eqb (lastSegment pageURL) "") eqn:Hl.
      * repeat split; [discriminate | now left].
      * apply String.eqb_neq in Hl. repeat split; try assumption. right. now exists before.
    + intros Hnone. rewrite Hnone. reflexivity.
    + intros Hsome.
      destruct (match features with Some l => l | None => [] end) as [|f fs] eqn:Hf;
        [contradiction|].
      eexists. split; [reflexivity|].
      apply (listItems_positions (f :: fs) 0).
Qed.

End WithEnv.

Example product_id_of_trailing_slash :
  field "id" (generateProductSchema None "Trade" "" None "https://shapeshift.com/trade/" None)
  = Str "shapeshift-product" /\
  field "id" (generateProductSchema None "Trade" "" None "https://shapeshift.com/trade" None)
  = Str "trade".
Proof.
  split; reflexivity.
Qed.

End SchemaFacts.

(* ------------------------------------------------------------------------- *)
(** ** The heading of a post page *)

Module PostHeadingFacts.
Import PostHeading.

Fixpoint hasHyphen (s : string) : bool :=
  match s with
  | EmptyString => false
  | String c s' => Ascii.eqb c "-"%char || hasHyphen s'
  end.

(** X15: the heading a post page derives from the slug has the length of
    the slug and no hyphen; a slug without hyphens is shown as it is, and
    replacing twice changes nothing more. *)
Theorem heading_has_no_hyphen (slug : string) :
  String.length (replaceHyphens slug) = String.length slug /\
  hasHyphen (replaceHyphens slug) = false /\
  (hasHyphen slug = false -> replaceHyphens slug = slug) /\
  replaceHyphens (replaceHyphens slug) = replaceHyphens slug.
Proof.
  induction slug as [|c slug (Hlen & Hno & Hsame & Hidem)]; [repeat split|].
  cbn [replaceHyphens String.length hasHyphen]. split; [|split; [|split]].
  - now rewrite Hlen.
  - rewrite Hno. now destruct (Ascii.eqb c "-") eqn:Hc; [|rewrite Hc].
  - destruct (Ascii.eqb c "-"); [discriminate|]. cbn [orb]. intros H. now rewrite Hsame.
  - rewrite Hidem. now destruct (Ascii.eqb c "-") eqn:Hc; [|rewrite Hc].
Qed.

Example heading_of_fox_token :
  replaceHyphens "what-is-the-fox-token" = "what is the fox token".
Proof.
  reflexivity.
Qed.

End PostHeadingFacts.

(* ------------------------------------------------------------------------- *)
(** ** What the scroll-spy keeps *)

Module FaqInvariantFacts.
Import Faq.

Lemma refLookup_mounted (sectionTitle : string) (refs : list (string * option Element))
      (element : Element) :
  refLookup sectionTitle refs = Some element -> In sectionTitle (map fst refs).
Proof.
  induction refs as [|[t e] refs IH]; cbn [refLookup map fst]; [discriminate|].
  destruct (String.eqb t sectionTitle) eqn:Ht; [|intros H; right; now apply IH].
  intros _. left. now apply String.eqb_eq.
Qed.


Lemma sectionPositions_titles (rectTop : Element -> number)
      (refs : list (string * option Element)) :
  map title (sectionPositions rectTop refs) = map fst refs.
Proof.
  unfold sectionPositions. rewrite map_map. reflexivity.
Qed.

(** The title a frame selects is a key of the refs, or the empty title
    when there is none. *)
Lemma closestSection_title (rectTop : Element -> number)
      (refs : list (string * option Element)) :
  let closest := closestSection (sectionPositions rectTop refs) in
  match refs with
  | [] => title closest = ""
  | _ => In (title closest) (map fst refs)
  end.
Proof.
  cbn zeta. destruct refs as [|entry refs]; [reflexivity|].
  rewrite <- (sectionPositions_titles rectTop). apply in_map.
  unfold closestSection.
  set (positions := sectionPositions rectTop (entry :: refs)).
  pose proof (FaqFacts.reduce_closer_in positions (hd {| title := ""; top := n0 |} positions))
    as [H|H]; [|exact H].
  rewrite <- H. now left.
Qed.

(** What every state of the mounted component satisfies. *)
Definition Inv (refs : list (string * option Element)) (s : State) : Prop :=
  sectionRefs s = refs /\
  (activeSection s = "" \/ In (activeSection s) (map fst refs)) /\
  (isManualScrolling s = true -> timers s <> 0%nat).

Lemma spy_Inv_mounted refs : Inv refs (mounted refs).
Proof.
  repeat split; [now left | discriminate].
Qed.

Lemma spy_Inv_step refs (s : State) (e : Event) : Inv refs s -> Inv refs (step s e).
Proof.
  intros (Hrefs & Hactive & Htimer). destruct e as [|rectTop|sectionTitle|]; cbn [step].
  - unfold handleScroll. destruct (isManualScrolling s) eqn:Hm.
    + split; [exact Hrefs|]. split; [exact Hactive|]. intros _. now apply Htimer.
    + split; [exact Hrefs|]. split; [exact Hactive|]. cbn. congruence.
  - unfold frameCallback. destruct (rafPending s).
    + split; [exact Hrefs|]. split; [|exact Htimer]. cbn [activeSection]. rewrite Hrefs.
      pose proof (closestSection_title rectTop refs) as H. cbn zeta in H.
      destruct refs; [now left | now right].
    + split; [exact Hrefs|]. split; assumption.
  - unfold scrollToSection.
    destruct (refLookup sectionTitle (sectionRefs s)) as [element|] eqn:Href.
    + split; [exact Hrefs|]. split; [|cbn; discriminate].
      right. cbn. rewrite Hrefs in Href. now apply refLookup_mounted in Href.
    + split; [exact Hrefs|]. split; assumption.
  - unfold timeoutCallback. destruct (timers s) as [|n] eqn:Hn.
    + split; [exact Hrefs|]. split; [exact Hactive|]. cbn. now rewrite Hn.
    + split; [exact Hrefs|]. split; [exact Hactive|]. cbn. discriminate.
Qed.

Lemma spy_Inv_run refs (events : list Event) : Inv refs (run events (mounted refs)).
Proof.
  unfold run. generalize (mounted refs) (spy_Inv_mounted refs).
  induction events as [|e events IH]; intros s HI; cbn [fold_left]; [exact HI|].
  apply IH. now apply spy_Inv_step.
Qed.



(** A key whose element is [null] counts as measured at top 0, so a frame
    can select it, here with the only element far below the line; a click
    on its link does nothing. *)
Example frame_may_select_a_null_ref :
  let s := mounted [("Ghost", None); ("Real", Some 0%nat)] in
  let far := fun _ : Element => S754_finite false 8796093022208000 (-43) in
  activeSection (frameCallback far s) = "Ghost" /\
  scrollToSection "Ghost" s = s.
Proof.
  split; vm_compute; reflexivity.
Qed.

(** X17: the scroll-spy is never suppressed for good: whatever events
    follow the mount, [isManualScrolling] is set only while a reset timer is
    pending, so with no timer pending a scroll event requests its frame; and
    the flag is down after any timer callback, also the callback of an
    earlier click while a later click is still being followed. *)
Theorem suppression_ends_with_a_timer (refs : list (string * option Element))
        (events : list Event) :
  let s := run events (mounted refs) in
  (isManualScrolling s = true -> timers s <> 0%nat) /\
  (timers s = 0%nat -> rafPending (handleScroll s) = true) /\
  isManualScrolling (step s Timeout) = false.
Proof.
  cbn zeta. destruct (spy_Inv_run refs events) as (_ & _ & Htimer).
  split; [exact Htimer|]. split.
  - intros Hzero. unfold handleScroll.
    destruct (isManualScrolling (run events (mounted refs))) eqn:Hm;
      [now apply Htimer in Hzero | reflexivity].
  - cbn [step]. unfold timeoutCallback.
    destruct (timers (run events (mounted refs))) as [|n] eqn:Hn; [|reflexivity].
    destruct (isManualScrolling (run events (mounted refs))); [|reflexivity].
    now destruct Htimer.
Qed.

(** Two clicks 300 ms apart: the timer of the first lowers the flag 200 ms
    after the second. *)
Example earlier_timer_ends_later_click :
  let s := run [Click "General"; Click "Wallets"; Timeout] FaqFacts.threeSections in
  isManualScrolling s = false /\ timers s = 1%nat /\ activeSection s = "Wallets".
Proof.
  repeat split.
Qed.

End FaqInvariantFacts.
